(** * jjidong-tube: the search pipeline of the YouTube analyser

    A shallow embedding of the TypeScript sources

    - [src/lib/youtube/client.ts]    (module [Client]),
    - [src/lib/youtube/videoType.ts] (module [VideoType]),
    - [src/lib/youtube/analysis.ts]  (module [Analysis]),
    - [app/api/youtube/search/route.ts] (module [Route]),
    - [components/VideoTable.tsx], the sort state and the sorted rows
      (module [Table]),
    - [app/page.tsx], the inputs, the stored key and [handleSearch]
      (module [Page]),

    preceded by the fragment of ECMAScript they rely on (module [JS]).

    Numbers.  A JavaScript number is modelled by [JS.number]: NaN or a
    rational.  Every finite IEEE-754 double is a rational, and the
    comparisons of the sources (against 0, 0.5, 1, 3, 5, 10, 180 and
    against each other) are exact on doubles.  Arithmetic is exact in the
    model: the rounding of [+] and [/] to the nearest double and the
    overflow of very long numerals to Infinity are left out, so the model
    agrees with the sources as long as the counters stay in the range
    where doubles hold whole numbers exactly and a quotient is not rounded
    across a threshold or a [toFixed] tie.  The samples evaluated below
    have quotients that doubles represent exactly.

    Strings are byte strings.  The network is a function from requests to
    responses, one per endpoint; whatever the platform may answer is some
    value of that function. *)

From Stdlib Require Import Ascii String QArith Qround Qabs Lqa.
From stdpp Require Import gmap strings list fin_maps sorting pretty.

Local Open Scope Z_scope.

(* ===================================================================== *)
(** * ECMAScript fragment *)
(* ===================================================================== *)

Module JS.

(** A number: NaN or a finite value. *)
Inductive number : Type :=
| NaN
| Fin (q : Q).

Definition ofZ (z : Z) : number := Fin (inject_Z z).
Definition ofNat (n : nat) : number := ofZ (Z.of_nat n).

(** Relational operators: every comparison with NaN is false. *)
Definition lt (a b : number) : bool :=
  match a, b with
  | Fin x, Fin y => negb (Qle_bool y x)
  | _, _ => false
  end.
Definition le (a b : number) : bool :=
  match a, b with
  | Fin x, Fin y => Qle_bool x y
  | _, _ => false
  end.
Definition gt (a b : number) : bool := lt b a.
Definition ge (a b : number) : bool := le b a.

(** [a === b] on numbers. *)
Definition strictEq (a b : number) : bool :=
  match a, b with
  | Fin x, Fin y => Qeq_bool x y
  | _, _ => false
  end.

(** Arithmetic; NaN is absorbing.  [x / 0] is ±Infinity or NaN in
    IEEE-754; every division of the sources is guarded against a zero
    divisor, and the model answers NaN there. *)
Definition add (a b : number) : number :=
  match a, b with
  | Fin x, Fin y => Fin (x + y)
  | _, _ => NaN
  end.
Definition sub (a b : number) : number :=
  match a, b with
  | Fin x, Fin y => Fin (x - y)
  | _, _ => NaN
  end.
Definition mul (a b : number) : number :=
  match a, b with
  | Fin x, Fin y => Fin (x * y)
  | _, _ => NaN
  end.
Definition div (a b : number) : number :=
  match a, b with
  | Fin x, Fin y => if Qeq_bool y 0 then NaN else Fin (x / y)
  | _, _ => NaN
  end.

(** ToBoolean on numbers, and [a || b]. *)
Definition truthy (a : number) : bool :=
  match a with
  | NaN => false
  | Fin x => negb (Qeq_bool x 0)
  end.
Definition or (a b : number) : number := if truthy a then a else b.

(** [Math.round]: the nearest integer, ties towards +Infinity. *)
Definition Math_round (a : number) : number :=
  match a with
  | NaN => NaN
  | Fin x => Fin (inject_Z (Qfloor (x + (1 # 2))))
  end.

(** [parseFloat(x.toFixed(d))]: [toFixed] picks the integer [n] with
    [n / 10^d] nearest to [|x|], the larger one on a tie, and prints it
    with the sign of [x]; [parseFloat] reads the decimal back.  The model
    rounds the exact value of [x]. *)
Definition pow10 (d : nat) : positive := Pos.pow 10 (Pos.of_nat d).
Definition scale (d : nat) : positive :=
  match d with O => 1%positive | _ => pow10 d end.
Definition parseFloat_toFixed (a : number) (d : nat) : number :=
  match a with
  | NaN => NaN
  | Fin x =>
      let n := Qfloor (Qabs x * inject_Z (Zpos (scale d)) + (1 # 2)) in
      Fin ((if Qle_bool 0 x then n else - n) # scale d)
  end.

(** ** [parseInt(string)], radix absent *)

Definition charCode (c : ascii) : Z := Z.of_N (N_of_ascii c).

(** White space skipped in front of the numeral (the ASCII part of
    StrWhiteSpaceChar: TAB, LF, VT, FF, CR, SP). *)
Definition isWhiteSpace (c : ascii) : bool :=
  let n := charCode c in ((9 <=? n) && (n <=? 13)) || (n =? 32).

Fixpoint trimStart (s : string) : string :=
  match s with
  | String c s' => if isWhiteSpace c then trimStart s' else s
  | EmptyString => s
  end.

(** [String.prototype.trim] *)
Fixpoint trimEnd (s : string) : string :=
  match s with
  | String c s' =>
      let r := trimEnd s' in
      if isWhiteSpace c && String.eqb r EmptyString then EmptyString
      else String c r
  | EmptyString => s
  end.
Definition trim (s : string) : string := trimEnd (trimStart s).

(** Value of a character as a digit of the given radix. *)
Definition digitValue (radix : Z) (c : ascii) : option Z :=
  let n := charCode c in
  let v :=
    if (48 <=? n) && (n <=? 57) then Some (n - 48)
    else if (97 <=? n) && (n <=? 122) then Some (n - 87)
    else if (65 <=? n) && (n <=? 90) then Some (n - 55)
    else None in
  match v with
  | Some d => if d <? radix then Some d else None
  | None => None
  end.

(** The longest prefix of radix digits, read as an integer; [acc] is
    [None] until a first digit has been seen. *)
Fixpoint readDigits (radix : Z) (s : string) (acc : option Z) : option Z :=
  match s with
  | String c s' =>
      match digitValue radix c with
      | Some d => readDigits radix s' (Some (default 0 acc * radix + d))
      | None => acc
      end
  | EmptyString => acc
  end.

Definition parseInt (input : string) : number :=
  let s := trimStart input in
  let '(sign, s) :=
    match s with
    | String c r =>
        if Ascii.eqb c "-" then (-1, r)
        else if Ascii.eqb c "+" then (1, r)
        else (1, s)
    | EmptyString => (1, s)
    end in
  let '(radix, s) :=
    match s with
    | String c0 (String c1 r) =>
        if Ascii.eqb c0 "0" && (Ascii.eqb c1 "x" || Ascii.eqb c1 "X")
        then (16, r)
        else (10, s)
    | _ => (10, s)
    end in
  match readDigits radix s None with
  | None => NaN
  | Some n => ofZ (sign * n)
  end.

(** ** [Array.prototype.sort(comparefn)]

    The sort is stable, and [a] is moved behind [b] only when
    [comparefn(a, b) > 0]; a NaN answer counts as [+0].  For a consistent
    comparator the result is determined by these two facts, and the
    insertion sort below computes it. *)
Section Sort.
Context {A : Type} (comparefn : A → A → number).

Fixpoint insert (x : A) (l : list A) : list A :=
  match l with
  | [] => [x]
  | y :: l' => if gt (comparefn x y) (ofZ 0) then y :: insert x l' else x :: l
  end.

Definition sort (l : list A) : list A := foldr insert [] l.
End Sort.

End JS.

(* ===================================================================== *)
(** * videoType.ts *)
(* ===================================================================== *)

Module VideoType.
Import JS.

Inductive VideoType : Type := shorts | longform.

Inductive VideoDuration : Type := short | medium | long | any.

Record VideoTypeSearchParams : Type :=
  { videoDurations : list VideoDuration }.

Definition getVideoTypeSearchParams (videoType : VideoType)
  : VideoTypeSearchParams :=
  match videoType with
  | shorts => {| videoDurations := [short] |}
  | longform => {| videoDurations := [medium; long] |}
  end.

(** ** The regular expression [/PT(?:(\d+)H)?(?:(\d+)M)?(?:(\d+)S)?/] *)

Definition isDigit (c : ascii) : bool :=
  let n := charCode c in (48 <=? n) && (n <=? 57).

(** [\d+], greedy: the longest run of digits and what follows it. *)
Fixpoint spanDigits (s : string) : string * string :=
  match s with
  | String c s' =>
      if isDigit c then let '(ds, r) := spanDigits s' in (String c ds, r)
      else (EmptyString, s)
  | EmptyString => (EmptyString, EmptyString)
  end.

(** [(?:(\d+)U)?]: the capture and the rest of the input.  A shorter run
    of digits is followed by a digit, never by the unit letter, so the
    group either takes the whole run or matches empty. *)
Definition group (unit : ascii) (s : string) : option string * string :=
  match spanDigits s with
  | (String d ds, String c r) =>
      if Ascii.eqb c unit then (Some (String d ds), r) else (None, s)
  | _ => (None, s)
  end.

(** The leftmost occurrence of ["PT"]; the optional groups cannot fail,
    so the leftmost occurrence is where the match is. *)
Fixpoint afterPT (s : string) : option string :=
  match s with
  | String "P" (String "T" r) => Some r
  | String _ s' => afterPT s'
  | EmptyString => None
  end.

(** [iso8601.match(...)]: the three captures, or [None] for a null match. *)
Definition matchDuration (iso8601 : string)
  : option (option string * option string * option string) :=
  match afterPT iso8601 with
  | None => None
  | Some r =>
      let '(h, r) := group "H" r in
      let '(m, r) := group "M" r in
      let '(s, _) := group "S" r in
      Some (h, m, s)
  end.

Definition parseDurationToSeconds (iso8601 : string) : number :=
  match matchDuration iso8601 with
  | None => ofZ 0
  | Some (m1, m2, m3) =>
      let hours := parseInt (default "0"%string m1) in
      let minutes := parseInt (default "0"%string m2) in
      let seconds := parseInt (default "0"%string m3) in
      add (add (mul hours (ofZ 3600)) (mul minutes (ofZ 60))) seconds
  end.

Definition matchesVideoType (durationISO : string) (videoType : VideoType)
  : bool :=
  let totalSeconds := parseDurationToSeconds durationISO in
  match videoType with
  | shorts => gt totalSeconds (ofZ 0) && le totalSeconds (ofZ 180)
  | longform => gt totalSeconds (ofZ 180)
  end.

End VideoType.

(* ===================================================================== *)
(** * client.ts *)
(* ===================================================================== *)

Module Client.
Import JS VideoType.
Local Open Scope string_scope.

(** ** Errors *)

Inductive YouTubeErrorCode : Type :=
| INVALID_API_KEY
| QUOTA_EXCEEDED
| FORBIDDEN
| NOT_FOUND
| NETWORK_ERROR
| UNKNOWN.

Record YouTubeAPIError : Type :=
  { message : string;
    code : YouTubeErrorCode;
    status : option Z }.

(** What a call can throw: a [YouTubeAPIError], or the error of
    [res.json()] on a body that is not JSON. *)
Inductive Thrown : Type :=
| APIError (e : YouTubeAPIError)
| JsonSyntaxError.

Definition Promise (T : Type) : Type := Thrown + T.

(** ** Response payloads (nested objects flattened, [?] fields optional) *)

Record YouTubeSearchItem : Type :=
  { search_videoId : string;              (* id.videoId *)
    search_publishedAt : string;          (* snippet.publishedAt *)
    search_channelId : string;            (* snippet.channelId *)
    search_title : string;                (* snippet.title *)
    search_thumbnail_medium : option string; (* snippet.thumbnails.medium?.url *)
    search_thumbnail_high : option string;   (* snippet.thumbnails.high?.url *)
    search_channelTitle : string }.       (* snippet.channelTitle *)

Record YouTubeVideoItem : Type :=
  { video_id : string;                    (* id *)
    video_duration : string;              (* contentDetails.duration *)
    video_viewCount : option string;      (* statistics.viewCount *)
    video_likeCount : option string;      (* statistics.likeCount *)
    video_commentCount : option string }. (* statistics.commentCount *)

Record YouTubeChannelItem : Type :=
  { channel_id : string;                  (* id *)
    channel_uploads : option string;      (* contentDetails?.relatedPlaylists?.uploads *)
    channel_subscriberCount : option string; (* statistics.subscriberCount *)
    channel_videoCount : option string;   (* statistics.videoCount *)
    channel_viewCount : option string }.  (* statistics.viewCount *)

Record YouTubePlaylistItem : Type :=
  { playlist_videoId : option string }.   (* snippet?.resourceId?.videoId *)

(** ** The transport, as [youtubeFetch] sees it *)

(** A body: not JSON at all, or JSON read through the two lenses of
    [youtubeFetch], the error envelope and the payload cast to [T]. *)
Inductive Json (T : Type) : Type :=
| Malformed
| Parsed (reason : option string)   (* error?.errors?.[0]?.reason *)
         (upstream : option string) (* error?.message *)
         (data : T).
Arguments Malformed {T}.
Arguments Parsed {T}.

Record Response (T : Type) : Type :=
  { res_status : Z;
    res_json : Json T }.
Arguments res_status {T}.
Arguments res_json {T}.

Definition res_ok {T} (res : Response T) : bool :=
  ((200 <=? res_status res) && (res_status res <=? 299))%Z.

(** [fetch(url)]: [None] when the promise rejects (no response). *)
Definition Fetch (T : Type) : Type :=
  string → list (string * string) → option (Response T).

Definition youtubeFetch {T} (fetch : Fetch T)
    (endpoint : string) (params : list (string * string)) (apiKey : string)
  : Promise T :=
  match fetch endpoint (params ++ [("key", apiKey)])%list with
  | None =>
      inl (APIError
             {| message := "YouTube API 네트워크 오류가 발생했습니다.";
                code := NETWORK_ERROR;
                status := None |})
  | Some res =>
      if negb (res_ok res) then
        let '(reason, message) :=
          match res_json res with
          | Malformed => ("unknown", "YouTube API 오류가 발생했습니다.")
          | Parsed r m _ =>
              (default "unknown" r, default "YouTube API 오류가 발생했습니다." m)
          end in
        if (res_status res =? 400)%Z
           || String.eqb reason "keyInvalid" || String.eqb reason "badRequest"
        then
          inl (APIError
                 {| message := "유효하지 않은 API Key입니다. 키를 확인해 주세요.";
                    code := INVALID_API_KEY;
                    status := Some (res_status res) |})
        else if (res_status res =? 403)%Z then
          if String.eqb reason "quotaExceeded"
             || String.eqb reason "dailyLimitExceeded"
          then
            inl (APIError
                   {| message := "YouTube API 일일 할당량이 초과되었습니다. 내일 다시 시도하거나 다른 API Key를 사용하세요.";
                      code := QUOTA_EXCEEDED;
                      status := Some (res_status res) |})
          else
            inl (APIError
                   {| message := "접근 권한이 없습니다: " ++ message;
                      code := FORBIDDEN;
                      status := Some (res_status res) |})
        else if (res_status res =? 404)%Z then
          inl (APIError
                 {| message := "리소스를 찾을 수 없습니다.";
                    code := NOT_FOUND;
                    status := Some (res_status res) |})
        else
          inl (APIError
                 {| message := message;
                    code := UNKNOWN;
                    status := Some (res_status res) |})
      else
        match res_json res with
        | Malformed => inl JsonSyntaxError
        | Parsed _ _ data => inr data
        end
  end.

(** ** The four operations *)

Record SearchData : Type :=
  { data_searchItems : option (list YouTubeSearchItem); (* items? *)
    data_nextPageToken : option string }.               (* nextPageToken? *)

Record SearchPage : Type :=
  { items : list YouTubeSearchItem;
    nextPageToken : option string }.

Record SearchParams : Type :=
  { sp_apiKey : string;
    sp_keyword : string;
    sp_videoDuration : VideoDuration;
    sp_maxResults : option Z;
    sp_publishedAfter : option string;
    sp_pageToken : option string }.

Definition videoDurationName (d : VideoDuration) : string :=
  match d with
  | short => "short" | medium => "medium" | long => "long" | any => "any"
  end.

(** [if (s)] on an optional string: present and not empty. *)
Definition given (s : option string) : option string :=
  match s with
  | Some EmptyString => None
  | _ => s
  end.

Definition searchVideos (fetch : Fetch SearchData) (params : SearchParams)
  : Promise SearchPage :=
  let searchParams :=
    ([ ("part", "snippet");
      ("q", sp_keyword params);
      ("type", "video");
      ("regionCode", "KR");
      ("relevanceLanguage", "ko");
      ("videoDuration", videoDurationName (sp_videoDuration params));
      ("maxResults", pretty (default 50%Z (sp_maxResults params)));
      ("videoEmbeddable", "true") ]
    ++ match given (sp_publishedAfter params) with
       | Some d => [("publishedAfter", d)] | None => [] end
    ++ match given (sp_pageToken params) with
       | Some t => [("pageToken", t)] | None => [] end)%list in
  match youtubeFetch fetch "search" searchParams (sp_apiKey params) with
  | inl e => inl e
  | inr data =>
      inr {| items := default [] (data_searchItems data);
             nextPageToken := data_nextPageToken data |}
  end.

(** [ids.join(",")] *)
Definition join (ids : list string) : string := String.concat "," ids.

(** [[...new Set(ids)]]: first occurrences, in order. *)
Definition unique (ids : list string) : list string :=
  foldl (λ seen i, if decide (i ∈ seen) then seen else (seen ++ [i])%list) [] ids.

Definition getVideoDetails (fetch : Fetch (option (list YouTubeVideoItem)))
    (apiKey : string) (videoIds : list string)
  : Promise (list YouTubeVideoItem) :=
  if (length videoIds =? 0)%nat then inr []
  else
    match youtubeFetch fetch "videos"
            [ ("part", "contentDetails,statistics");
              ("id", join videoIds);
              ("maxResults", "50") ] apiKey with
    | inl e => inl e
    | inr data => inr (default [] data)
    end.

Definition getChannelDetails (fetch : Fetch (option (list YouTubeChannelItem)))
    (apiKey : string) (channelIds : list string)
  : Promise (list YouTubeChannelItem) :=
  if (length channelIds =? 0)%nat then inr []
  else
    let uniqueIds := unique channelIds in
    match youtubeFetch fetch "channels"
            [ ("part", "statistics,contentDetails");
              ("id", join uniqueIds);
              ("maxResults", "50") ] apiKey with
    | inl e => inl e
    | inr data => inr (default [] data)
    end.

Definition getPlaylistItems (fetch : Fetch (option (list YouTubePlaylistItem)))
    (apiKey : string) (playlistId : string) (maxResults : option Z)
  : Promise (list YouTubePlaylistItem) :=
  match youtubeFetch fetch "playlistItems"
          [ ("part", "snippet");
            ("playlistId", playlistId);
            ("maxResults", pretty (default 50%Z maxResults)) ] apiKey with
  | inl e => inl e
  | inr data => inr (default [] data)
  end.

End Client.

(* ===================================================================== *)
(** * analysis.ts *)
(* ===================================================================== *)

Module Analysis.
Import JS VideoType Client.
Local Open Scope string_scope.

(** ** Scores *)

Inductive Label : Type := Excellent | Great | Good | Normal | Bad.

Record ScoreInfo : Type :=
  { score : Z;
    label : Label;
    color : string }.

Definition SCORE_PALETTE (s : Z) : string :=
  match s with
  | 5 => "#f87171"
  | 4 => "#4ade80"
  | 3 => "#60a5fa"
  | 2 => "#cbd5e1"
  | 1 => "#64748b"
  | _ => ""   (* no other key is ever read *)
  end%Z.

Definition half : number := Fin (1 # 2).

Definition calcPerformanceScore (viewToSubscriberRatio : number) : ScoreInfo :=
  if ge viewToSubscriberRatio (ofZ 5) then
    {| score := 5; label := Excellent; color := SCORE_PALETTE 5 |}
  else if ge viewToSubscriberRatio (ofZ 3) then
    {| score := 4; label := Great; color := SCORE_PALETTE 4 |}
  else if ge viewToSubscriberRatio (ofZ 1) then
    {| score := 3; label := Good; color := SCORE_PALETTE 3 |}
  else if ge viewToSubscriberRatio half then
    {| score := 2; label := Normal; color := SCORE_PALETTE 2 |}
  else
    {| score := 1; label := Bad; color := SCORE_PALETTE 1 |}.

Definition calcContributionScore (viewCount channelAvgViews : number)
  : option ScoreInfo :=
  if le channelAvgViews (ofZ 0) then None
  else
    let ratio := div viewCount channelAvgViews in
    if ge ratio (ofZ 10) then
      Some {| score := 5; label := Excellent; color := SCORE_PALETTE 5 |}
    else if ge ratio (ofZ 5) then
      Some {| score := 4; label := Great; color := SCORE_PALETTE 4 |}
    else if ge ratio (ofZ 1) then
      Some {| score := 3; label := Good; color := SCORE_PALETTE 3 |}
    else if ge ratio half then
      Some {| score := 2; label := Normal; color := SCORE_PALETTE 2 |}
    else
      Some {| score := 1; label := Bad; color := SCORE_PALETTE 1 |}.

Definition calcChannelAvgViews (videoSamples : list YouTubeVideoItem)
    (videoType : VideoType) : number :=
  let filtered :=
    List.filter (λ v, matchesVideoType (video_duration v) videoType)
      videoSamples in
  if (length filtered =? 0)%nat then ofZ 0
  else
    let totalViews :=
      foldl (λ sum v, add sum (parseInt (default "0" (video_viewCount v))))
        (ofZ 0) filtered in
    Math_round (div totalViews (ofNat (length filtered))).

(** ** Result records *)

Record VideoResult : Type :=
  { id : string;
    title : string;
    thumbnail : string;
    channelId : string;
    channelTitle : string;
    publishedAt : string;
    viewCount : number;
    likeCount : option number;
    subscriberCount : number;
    totalVideoCount : number;
    viewToSubscriberRatio : number;
    likeToSubscriberRatio : option number;
    duration : string;
    performanceScore : ScoreInfo;
    contributionScore : option ScoreInfo;
    channelAvgViews : option number }.

(** [undefined] and [null] are both [None]: the filters are tested with
    [!= null]. *)
Record BuildFilterOptions : Type :=
  { minViewCount : option number;
    maxSubscriberCount : option number }.

(** [new Map(entries)]: a later entry replaces an earlier one with the
    same key. *)
Definition newMap {V} (entries : list (string * V)) : gmap string V :=
  foldl (λ m e, <[e.1 := e.2]> m) ∅ entries.

(** The body of the [for] loop after the budget test: [None] is a
    [continue], [Some r] is [results.push(r)]. *)
Definition joinAndScore
    (videoMap : gmap string YouTubeVideoItem)
    (channelMap : gmap string YouTubeChannelItem)
    (videoType : VideoType)
    (channelAvgMap : gmap string number)
    (filters : BuildFilterOptions)
    (searchItem : YouTubeSearchItem) : option VideoResult :=
  let videoId := search_videoId searchItem in
  let channelId := search_channelId searchItem in
  match videoMap !! videoId, channelMap !! channelId with
  | Some videoDetail, Some channelDetail =>
      let duration := video_duration videoDetail in
      if negb (matchesVideoType duration videoType) then None
      else
        let viewCount := parseInt (default "0" (video_viewCount videoDetail)) in
        let likeCount :=
          match video_likeCount videoDetail with
          | Some l => Some (parseInt l)
          | None => None
          end in
        let subscriberCount :=
          parseInt (default "0" (channel_subscriberCount channelDetail)) in
        let totalVideoCount :=
          parseInt (default "0" (channel_videoCount channelDetail)) in
        if strictEq subscriberCount (ofZ 0) then None
        else if
          match maxSubscriberCount filters with
          | Some cap => gt subscriberCount cap
          | None => false
          end
        then None
        else if lt viewCount subscriberCount then None
        else if
          match minViewCount filters with
          | Some floor => lt viewCount floor
          | None => false
          end
        then None
        else
          let viewToSubscriberRatio :=
            parseFloat_toFixed (div viewCount subscriberCount) 2 in
          let likeToSubscriberRatio :=
            match likeCount with
            | Some l => Some (parseFloat_toFixed (div l subscriberCount) 4)
            | None => None
            end in
          let thumbnail :=
            match search_thumbnail_high searchItem with
            | Some u => u
            | None => default "" (search_thumbnail_medium searchItem)
            end in
          let performanceScore := calcPerformanceScore viewToSubscriberRatio in
          let channelAvgViews := channelAvgMap !! channelId in
          let contributionScore :=
            match channelAvgViews with
            | Some avg =>
                if gt avg (ofZ 0) then calcContributionScore viewCount avg
                else None
            | None => None
            end in
          Some {| id := videoId;
                  title := search_title searchItem;
                  thumbnail := thumbnail;
                  channelId := channelId;
                  channelTitle := search_channelTitle searchItem;
                  publishedAt := search_publishedAt searchItem;
                  viewCount := viewCount;
                  likeCount := likeCount;
                  subscriberCount := subscriberCount;
                  totalVideoCount := totalVideoCount;
                  viewToSubscriberRatio := viewToSubscriberRatio;
                  likeToSubscriberRatio := likeToSubscriberRatio;
                  duration := duration;
                  performanceScore := performanceScore;
                  contributionScore := contributionScore;
                  channelAvgViews := channelAvgViews |}
  | _, _ => None
  end.

(** The [for] loop: [results] is the accumulator, in push order. *)
Fixpoint collect
    (videoMap : gmap string YouTubeVideoItem)
    (channelMap : gmap string YouTubeChannelItem)
    (videoType : VideoType)
    (channelAvgMap : gmap string number)
    (filters : BuildFilterOptions)
    (maxResults : number)
    (searchItems : list YouTubeSearchItem)
    (results : list VideoResult) : list VideoResult :=
  match searchItems with
  | [] => results
  | searchItem :: rest =>
      if ge (ofNat (length results)) maxResults then results
      else
        match joinAndScore videoMap channelMap videoType channelAvgMap
                filters searchItem with
        | None =>
            collect videoMap channelMap videoType channelAvgMap filters
              maxResults rest results
        | Some r =>
            collect videoMap channelMap videoType channelAvgMap filters
              maxResults rest (results ++ [r])%list
        end
  end.

(** The comparator handed to [results.sort]. *)
Definition byScoreThenRatio (a b : VideoResult) : number :=
  or (sub (ofZ (score (performanceScore b))) (ofZ (score (performanceScore a))))
     (sub (viewToSubscriberRatio b) (viewToSubscriberRatio a)).

Definition default_filters : BuildFilterOptions :=
  {| minViewCount := None; maxSubscriberCount := None |}.
Definition default_maxResults : number := ofZ 30.

Definition buildAndFilterResults
    (searchItems : list YouTubeSearchItem)
    (videoItems : list YouTubeVideoItem)
    (channelItems : list YouTubeChannelItem)
    (videoType : VideoType)
    (channelAvgMap : gmap string number)
    (filters : BuildFilterOptions)
    (maxResults : number) : list VideoResult :=
  let videoMap := newMap (map (λ v, (video_id v, v)) videoItems) in
  let channelMap := newMap (map (λ c, (channel_id c, c)) channelItems) in
  let results :=
    collect videoMap channelMap videoType channelAvgMap filters maxResults
      searchItems [] in
  sort byScoreThenRatio results.

End Analysis.

(* ===================================================================== *)
(** * app/api/youtube/search/route.ts *)
(* ===================================================================== *)

Module Route.
Import JS VideoType Client Analysis.
Local Open Scope string_scope.

(** The request body after [req.json()]; a field that is absent or not
    of its declared type is [None]. *)
Record SearchRequestBody : Type :=
  { body_apiKey : option string;
    body_keyword : option string;
    body_videoType : option string;
    body_uploadPeriod : option string;
    body_minViewCount : option number;
    body_maxSubscriberCount : option number }.

Inductive NextResponse : Type :=
| VideosResponse (videos : list VideoResult) (total : nat)  (* status 200 *)
| ErrorResponse (error : string) (code : option YouTubeErrorCode)
                (status : Z).

(** The platform: one transport per endpoint. *)
Record Network : Type :=
  { fetchSearch : Fetch SearchData;
    fetchVideos : Fetch (option (list YouTubeVideoItem));
    fetchChannels : Fetch (option (list YouTubeChannelItem));
    fetchPlaylistItems : Fetch (option (list YouTubePlaylistItem)) }.

(** [await] inside the [try] block. *)
Definition bind {A B} (p : Promise A) (k : A → Promise B) : Promise B :=
  match p with
  | inl e => inl e
  | inr a => k a
  end.
Local Notation "'await' x := p 'in' k" := (bind p (λ x, k))
  (at level 10, x name, p at level 100, k at level 200).

(** [Promise.all]: all the results, or a rejection.  Which of several
    rejections is reported depends on arrival order; the model reports
    the first in list order. *)
Fixpoint Promise_all {A} (ps : list (Promise A)) : Promise (list A) :=
  match ps with
  | [] => inr []
  | p :: ps' =>
      await a := p in
      await r := Promise_all ps' in
      inr (a :: r)
  end.

(** [calcPublishedAfter]; [clock p] is the ISO date of "now" moved back
    by the period [p]. *)
Definition calcPublishedAfter (clock : string → string)
    (period : option string) : option string :=
  match given period with
  | None => None
  | Some p =>
      if String.eqb p "all" then None
      else if String.eqb p "1month" || String.eqb p "3months"
              || String.eqb p "6months" || String.eqb p "1year"
      then Some (clock p)
      else None
  end.

(** [fetchInChunks]: the slices [ids.slice(i, i + chunkSize)] for
    [i = 0, chunkSize, 2 * chunkSize, ... < ids.length]. *)
Definition chunks (ids : list string) (chunkSize : nat) : list (list string) :=
  map (λ k, take chunkSize (drop (k * chunkSize) ids))
      (seq 0 ((length ids + chunkSize - 1) / chunkSize)).

Definition fetchInChunks {T} (ids : list string) (chunkSize : nat)
    (fetcher : list string → Promise (list T)) : Promise (list T) :=
  await results := Promise_all (map fetcher (chunks ids chunkSize)) in
  inr (concat results).

(** [new Map(entries)] followed by [[...map.values()]]: one value per
    key, the last one set, in the order in which keys first appear. *)
Fixpoint mapSet {V} (k : string) (v : V) (entries : list (string * V))
  : list (string * V) :=
  match entries with
  | [] => [(k, v)]
  | (k', v') :: r =>
      if String.eqb k k' then (k, v) :: r else (k', v') :: mapSet k v r
  end.
Definition mapValues {V} (entries : list (string * V)) : list V :=
  map snd (foldl (λ m e, mapSet e.1 e.2 m) [] entries).

(** Stage 1, one duration bucket: the first page and, when it names a
    next page, the second. *)
Definition searchBucket (net : Network) (apiKey keyword : string)
    (publishedAfter : option string) (dur : VideoDuration)
  : Promise (list YouTubeSearchItem) :=
  let baseParams :=
    {| sp_apiKey := apiKey;
       sp_keyword := trim keyword;
       sp_videoDuration := dur;
       sp_maxResults := Some 50%Z;
       sp_publishedAfter := publishedAfter;
       sp_pageToken := None |} in
  await page1 := searchVideos (fetchSearch net) baseParams in
  match given (nextPageToken page1) with
  | Some token =>
      await page2 :=
        searchVideos (fetchSearch net)
          {| sp_apiKey := apiKey;
             sp_keyword := trim keyword;
             sp_videoDuration := dur;
             sp_maxResults := Some 50%Z;
             sp_publishedAfter := publishedAfter;
             sp_pageToken := Some token |} in
      inr (items page1 ++ items page2)%list
  | None => inr (items page1)
  end.

(** Stage 3, one channel: sample the uploads playlist and record the
    average when it is positive.  Anything thrown is swallowed.  The
    channels are sampled in parallel and each one writes its own key; the
    model takes them in list order. *)
Definition estimateChannel (net : Network) (apiKey : string)
    (videoType : VideoType) (channelAvgMap : gmap string number)
    (channel : YouTubeChannelItem) : gmap string number :=
  match getPlaylistItems (fetchPlaylistItems net) apiKey
          (default "" (channel_uploads channel)) (Some 50%Z) with
  | inl _ => channelAvgMap
  | inr playlistItems =>
      let sampleIds :=
        omap (λ p, given (playlist_videoId p)) playlistItems in
      if (length sampleIds =? 0)%nat then channelAvgMap
      else
        match getVideoDetails (fetchVideos net) apiKey sampleIds with
        | inl _ => channelAvgMap
        | inr sampleVideos =>
            let avg := calcChannelAvgViews sampleVideos videoType in
            if gt avg (ofZ 0) then <[channel_id channel := avg]> channelAvgMap
            else channelAvgMap
        end
  end.

Definition estimateChannels (net : Network) (apiKey : string)
    (videoType : VideoType) (channelItems : list YouTubeChannelItem)
  : gmap string number :=
  foldl (estimateChannel net apiKey videoType) ∅
    (List.filter (λ c, bool_decide (is_Some (given (channel_uploads c))))
       channelItems).

(** The [try] block of the handler.  The two detail batches of stage 2
    run in parallel; see [Promise_all] for the rejection that is reported. *)
Definition pipeline (net : Network) (clock : string → string)
    (apiKey keyword : string) (videoType : VideoType)
    (uploadPeriod : option string)
    (minViewCount maxSubscriberCount : option number)
  : Promise NextResponse :=
  let videoDurations := videoDurations (getVideoTypeSearchParams videoType) in
  let publishedAfter := calcPublishedAfter clock uploadPeriod in
  await searchResultArrays :=
    Promise_all
      (map (searchBucket net apiKey keyword publishedAfter) videoDurations) in
  let allSearchItems :=
    mapValues (map (λ item, (search_videoId item, item))
                 (concat searchResultArrays)) in
  if (length allSearchItems =? 0)%nat then inr (VideosResponse [] 0)
  else
    let videoIds := map search_videoId allSearchItems in
    let channelIds := unique (map search_channelId allSearchItems) in
    await videoItems :=
      fetchInChunks videoIds 50 (getVideoDetails (fetchVideos net) apiKey) in
    await channelItems :=
      fetchInChunks channelIds 50
        (getChannelDetails (fetchChannels net) apiKey) in
    let channelAvgMap := estimateChannels net apiKey videoType channelItems in
    let filters :=
      {| minViewCount :=
           match minViewCount with
           | Some m => if truthy m && gt m (ofZ 0) then Some m else None
           | None => None
           end;
         maxSubscriberCount := maxSubscriberCount |} in
    let results :=
      buildAndFilterResults allSearchItems videoItems channelItems videoType
        channelAvgMap filters (ofZ 100) in
    inr (VideosResponse results (length results)).

Definition statusMap (c : YouTubeErrorCode) : Z :=
  match c with
  | INVALID_API_KEY => 401
  | QUOTA_EXCEEDED => 429
  | FORBIDDEN => 403
  | NOT_FOUND => 404
  | NETWORK_ERROR => 503
  | UNKNOWN => 500
  end%Z.

(** [POST]; [None] is a request whose body is not JSON. *)
Definition POST (net : Network) (clock : string → string)
    (req : option SearchRequestBody) : NextResponse :=
  match req with
  | None => ErrorResponse "요청 형식이 올바르지 않습니다." None 400
  | Some body =>
      match given (body_apiKey body), given (body_keyword body) with
      | None, _ => ErrorResponse "API Key를 입력해 주세요." None 400
      | Some apiKey, keyword =>
          if String.eqb (trim apiKey) "" then
            ErrorResponse "API Key를 입력해 주세요." None 400
          else
            match keyword with
            | None => ErrorResponse "검색 키워드를 입력해 주세요." None 400
            | Some keyword =>
                if String.eqb (trim keyword) "" then
                  ErrorResponse "검색 키워드를 입력해 주세요." None 400
                else
                  let run videoType :=
                    match
                      pipeline net clock apiKey keyword videoType
                        (body_uploadPeriod body) (body_minViewCount body)
                        (body_maxSubscriberCount body)
                    with
                    | inr response => response
                    | inl (APIError err) =>
                        ErrorResponse (message err) (Some (code err))
                          (statusMap (code err))
                    | inl JsonSyntaxError =>
                        ErrorResponse
                          "서버 오류가 발생했습니다. 잠시 후 다시 시도해 주세요."
                          None 500
                    end in
                  let invalid :=
                    ErrorResponse
                      "videoType은 'shorts' 또는 'longform'이어야 합니다."
                      None 400 in
                  match body_videoType body with
                  | Some videoType =>
                      if String.eqb videoType "shorts" then run shorts
                      else if String.eqb videoType "longform" then run longform
                      else invalid
                  | None => invalid
                  end
            end
      end
  end.

End Route.

(* ===================================================================== *)
(** * Sample data for the examples *)
(* ===================================================================== *)

Module Sample.
Import Client.
Local Open Scope string_scope.

Definition searchItem (videoId channelId : string) : YouTubeSearchItem :=
  {| search_videoId := videoId;
     search_publishedAt := "2025-01-01T00:00:00Z";
     search_channelId := channelId;
     search_title := "title";
     search_thumbnail_medium := None;
     search_thumbnail_high := Some "https://i.ytimg.com/hq.jpg";
     search_channelTitle := "channel" |}.

Definition video (videoId duration : string) (views : option string)
  : YouTubeVideoItem :=
  {| video_id := videoId;
     video_duration := duration;
     video_viewCount := views;
     video_likeCount := None;
     video_commentCount := None |}.

Definition channel (channelId : string) (subscribers : option string)
  : YouTubeChannelItem :=
  {| channel_id := channelId;
     channel_uploads := Some ("UU" ++ channelId);
     channel_subscriberCount := subscribers;
     channel_videoCount := Some "10";
     channel_viewCount := None |}.

(** One long video with 1,000,000 views on a channel with 200,000
    subscribers whose long videos average 50,000 views. *)
Definition searchItems1 : list YouTubeSearchItem := [searchItem "v1" "c1"].
Definition videoItems1 : list YouTubeVideoItem :=
  [video "v1" "PT10M" (Some "1000000")].
Definition channelItems1 : list YouTubeChannelItem :=
  [channel "c1" (Some "200000")].
Definition averages1 : gmap string JS.number := {[ "c1" := JS.ofZ 50000 ]}.
Definition record1 : Analysis.VideoResult :=
  {| Analysis.id := "v1";
     Analysis.title := "title";
     Analysis.thumbnail := "https://i.ytimg.com/hq.jpg";
     Analysis.channelId := "c1";
     Analysis.channelTitle := "channel";
     Analysis.publishedAt := "2025-01-01T00:00:00Z";
     Analysis.viewCount := JS.ofZ 1000000;
     Analysis.likeCount := None;
     Analysis.subscriberCount := JS.ofZ 200000;
     Analysis.totalVideoCount := JS.ofZ 10;
     Analysis.viewToSubscriberRatio := JS.Fin (500 # 100);
     Analysis.likeToSubscriberRatio := None;
     Analysis.duration := "PT10M";
     Analysis.performanceScore :=
       {| Analysis.score := 5; Analysis.label := Analysis.Excellent;
          Analysis.color := "#f87171" |};
     Analysis.contributionScore :=
       Some {| Analysis.score := 5; Analysis.label := Analysis.Excellent;
               Analysis.color := "#f87171" |};
     Analysis.channelAvgViews := Some (JS.ofZ 50000) |}.

(** Three long videos of one channel with a single subscriber: ["a"] and
    ["b"] have 2 views each, ["c"] has 10. *)
Definition videoItems2 : list YouTubeVideoItem :=
  [video "a" "PT10M" (Some "2"); video "b" "PT10M" (Some "2");
   video "c" "PT10M" (Some "10")].
Definition channelItems2 : list YouTubeChannelItem := [channel "c1" (Some "1")].
Definition searchItems_abc : list YouTubeSearchItem :=
  [searchItem "a" "c1"; searchItem "b" "c1"; searchItem "c" "c1"].

Definition record2 (videoId : string) (views hundredths : Z)
    (performance : Analysis.ScoreInfo) : Analysis.VideoResult :=
  {| Analysis.id := videoId;
     Analysis.title := "title";
     Analysis.thumbnail := "https://i.ytimg.com/hq.jpg";
     Analysis.channelId := "c1";
     Analysis.channelTitle := "channel";
     Analysis.publishedAt := "2025-01-01T00:00:00Z";
     Analysis.viewCount := JS.ofZ views;
     Analysis.likeCount := None;
     Analysis.subscriberCount := JS.ofZ 1;
     Analysis.totalVideoCount := JS.ofZ 10;
     Analysis.viewToSubscriberRatio := JS.Fin (hundredths # 100);
     Analysis.likeToSubscriberRatio := None;
     Analysis.duration := "PT10M";
     Analysis.performanceScore := performance;
     Analysis.contributionScore := None;
     Analysis.channelAvgViews := None |}.
Definition good : Analysis.ScoreInfo :=
  {| Analysis.score := 3; Analysis.label := Analysis.Good;
     Analysis.color := "#60a5fa" |}.
Definition excellent : Analysis.ScoreInfo :=
  {| Analysis.score := 5; Analysis.label := Analysis.Excellent;
     Analysis.color := "#f87171" |}.
Definition record_a : Analysis.VideoResult := record2 "a" 2 200 good.
Definition record_b : Analysis.VideoResult := record2 "b" 2 200 good.
Definition record_c : Analysis.VideoResult := record2 "c" 10 1000 excellent.

(** Two long videos of a channel whose subscriber count is not a numeral. *)
Definition videoItems3 : list YouTubeVideoItem :=
  [video "a" "PT10M" (Some "2"); video "b" "PT10M" (Some "2")].
Definition channelItems3 : list YouTubeChannelItem :=
  [channel "c1" (Some "hidden")].
Definition searchItems_ab : list YouTubeSearchItem :=
  [searchItem "a" "c1"; searchItem "b" "c1"].

(** A platform with 31 short videos of one small channel, whose uploads
    playlist cannot be read. *)
Definition manyIds : list string := map (λ i : nat, "v" ++ pretty i) (seq 0 31).

Definition ok200 {T} (data : T) : option (Response T) :=
  Some {| res_status := 200; res_json := Parsed None None data |}.

Definition platform31 : Route.Network :=
  {| Route.fetchSearch := λ _ _,
       ok200 {| data_searchItems :=
                  Some (map (λ i, searchItem i "c1") manyIds);
                data_nextPageToken := None |};
     Route.fetchVideos := λ _ _,
       ok200 (Some (map (λ i, video i "PT30S" (Some "5")) manyIds));
     Route.fetchChannels := λ _ _, ok200 (Some [channel "c1" (Some "1")]);
     Route.fetchPlaylistItems := λ _ _, None |}.

Definition request31 : Route.SearchRequestBody :=
  {| Route.body_apiKey := Some "KEY";
     Route.body_keyword := Some "cats";
     Route.body_videoType := Some "shorts";
     Route.body_uploadPeriod := None;
     Route.body_minViewCount := None;
     Route.body_maxSubscriberCount := None |}.

Definition clock (period : string) : string := "2025-01-01T00:00:00.000Z".
End Sample.


(* ===================================================================== *)
(** * Vocabulary of the statements *)
(* ===================================================================== *)

Module Vocabulary.
Import JS VideoType Client Analysis.
Local Open Scope string_scope.

(** A string of decimal digits only. *)
Fixpoint allDigits (s : string) : bool :=
  match s with
  | String c s' => isDigit c && allDigits s'
  | EmptyString => true
  end.

(** A statistics string that [parseInt] reads as a number, and one that
    it reads as a whole number that is not negative (an absent string
    counts as ["0"]). *)
Definition isNumber (s : option string) : Prop :=
  parseInt (default "0" s) ≠ NaN.
Definition isCount (s : option string) : Prop :=
  ∃ n : Z, (0 ≤ n)%Z ∧ parseInt (default "0" s) = ofZ n.

Definition total (views : list Z) : Z := foldr Z.add 0%Z views.

(** The sort does not move [a] behind [b]. *)
Definition notAfter {A} (comparefn : A → A → number) (a b : A) : Prop :=
  gt (comparefn a b) (ofZ 0) = false.

(** The sort key of a record, and the order the comparator is meant to
    produce: higher score first, then higher ratio. *)
Definition sortKey (r : VideoResult) : Z * number :=
  (score (performanceScore r), viewToSubscriberRatio r).
Definition keyBefore (k1 k2 : Z * number) : Prop :=
  (k2.1 < k1.1)%Z ∨ (k1.1 = k2.1 ∧ ge k1.2 k2.2 = true).
Definition rankedBefore (a b : VideoResult) : Prop :=
  keyBefore (sortKey a) (sortKey b).

(** The accumulator of [buildAndFilterResults] when its loop ends. *)
Definition accumulated (searchItems : list YouTubeSearchItem)
    (videoItems : list YouTubeVideoItem)
    (channelItems : list YouTubeChannelItem) (videoType : VideoType)
    (channelAvgMap : gmap string number) (filters : BuildFilterOptions)
    (maxResults : number) : list VideoResult :=
  collect (newMap (map (λ v, (video_id v, v)) videoItems))
    (newMap (map (λ c, (channel_id c, c)) channelItems))
    videoType channelAvgMap filters maxResults searchItems [].

(** The record [r] was built from the search item and the two details. *)
Definition joins (r : VideoResult) (searchItem : YouTubeSearchItem)
    (videoDetail : YouTubeVideoItem) (channelDetail : YouTubeChannelItem)
  : Prop :=
  video_id videoDetail = search_videoId searchItem
  ∧ channel_id channelDetail = search_channelId searchItem
  ∧ id r = search_videoId searchItem
  ∧ channelId r = search_channelId searchItem
  ∧ viewCount r = parseInt (default "0" (video_viewCount videoDetail))
  ∧ subscriberCount r
    = parseInt (default "0" (channel_subscriberCount channelDetail)).

(** The reason and the message [youtubeFetch] reads in a response that
    is not ok. *)
Definition errorReason {T} (res : Response T) : string :=
  match res_json res with
  | Parsed r _ _ => default "unknown" r
  | Malformed => "unknown"
  end.
Definition errorMessage {T} (res : Response T) : string :=
  match res_json res with
  | Parsed _ m _ => default "YouTube API 오류가 발생했습니다." m
  | Malformed => "YouTube API 오류가 발생했습니다."
  end.

(** The error thrown for a response that is not ok, as a function of
    what [youtubeFetch] read in it. *)
Definition translateError (status : Z) (reason message : string)
  : YouTubeAPIError :=
  if (status =? 400)%Z
     || String.eqb reason "keyInvalid" || String.eqb reason "badRequest"
  then
    {| Client.message := "유효하지 않은 API Key입니다. 키를 확인해 주세요.";
       code := INVALID_API_KEY;
       Client.status := Some status |}
  else if (status =? 403)%Z then
    if String.eqb reason "quotaExceeded"
       || String.eqb reason "dailyLimitExceeded"
    then
      {| Client.message := "YouTube API 일일 할당량이 초과되었습니다. 내일 다시 시도하거나 다른 API Key를 사용하세요.";
         code := QUOTA_EXCEEDED;
         Client.status := Some status |}
    else
      {| Client.message := "접근 권한이 없습니다: " ++ message;
         code := FORBIDDEN;
         Client.status := Some status |}
  else if (status =? 404)%Z then
    {| Client.message := "리소스를 찾을 수 없습니다.";
       code := NOT_FOUND;
       Client.status := Some status |}
  else
    {| Client.message := message;
       code := UNKNOWN;
       Client.status := Some status |}.

Definition malformedKeyReason (reason : string) : Prop :=
  reason = "keyInvalid" ∨ reason = "badRequest".
Definition quotaReason (reason : string) : Prop :=
  reason = "quotaExceeded" ∨ reason = "dailyLimitExceeded".
End Vocabulary.

(* ===================================================================== *)
(** * components/VideoTable.tsx: the sort state and the sorted rows *)
(* ===================================================================== *)

(** The rows are the records as the handler built them; the response
    body carries them as JSON, which writes a NaN as [null] and leaves
    the two scores, the columns the properties below read, as they are.
    [getTime s] is [new Date(s).getTime()]. *)
Module Table.
Import JS Analysis.

Inductive SortKey : Type :=
| key_viewCount
| key_subscriberCount
| key_totalVideoCount
| key_contributionScore
| key_performanceScore
| key_publishedAt.

Inductive SortDir : Type := asc | desc.

Definition SortKey_eqb (a b : SortKey) : bool :=
  match a, b with
  | key_viewCount, key_viewCount
  | key_subscriberCount, key_subscriberCount
  | key_totalVideoCount, key_totalVideoCount
  | key_contributionScore, key_contributionScore
  | key_performanceScore, key_performanceScore
  | key_publishedAt, key_publishedAt => true
  | _, _ => false
  end.

Definition getSortValue (getTime : string → number) (video : VideoResult)
    (key : SortKey) : number :=
  match key with
  | key_viewCount => viewCount video
  | key_subscriberCount => subscriberCount video
  | key_totalVideoCount => totalVideoCount video
  | key_contributionScore =>
      match contributionScore video with
      | Some info => ofZ (score info)
      | None => ofZ (-1)
      end
  | key_performanceScore => ofZ (score (performanceScore video))
  | key_publishedAt => getTime (publishedAt video)
  end.

(** The two [useState] cells. *)
Record State : Type :=
  { sortKey : SortKey;
    sortDir : SortDir }.

Definition initial : State :=
  {| sortKey := key_performanceScore; sortDir := desc |}.

Definition handleSort (st : State) (key : SortKey) : State :=
  if SortKey_eqb (sortKey st) key then
    {| sortKey := sortKey st;
       sortDir := match sortDir st with desc => asc | asc => desc end |}
  else
    {| sortKey := key; sortDir := desc |}.

(** The comparator of [sorted], and [sorted]. *)
Definition compare (getTime : string → number) (st : State)
    (a b : VideoResult) : number :=
  let av := getSortValue getTime a (sortKey st) in
  let bv := getSortValue getTime b (sortKey st) in
  match sortDir st with
  | desc => sub bv av
  | asc => sub av bv
  end.

Definition sorted (getTime : string → number) (st : State)
    (videos : list VideoResult) : list VideoResult :=
  sort (compare getTime st) videos.

End Table.

(* ===================================================================== *)
(** * app/page.tsx: what the page stores and what it sends *)
(* ===================================================================== *)

(** The state of the component is passed explicitly: the inputs, the
    item of [localStorage], the search state.  The server is a function
    from request bodies to responses; the request and the response are
    taken as values, without their JSON encoding. *)
Module Page.
Import JS VideoType Route.
Local Open Scope string_scope.

Inductive UploadPeriod : Type := all | month1 | months3 | months6 | year1.

(** The values of the two unions, as [JSON.stringify] writes them. *)
Definition videoTypeName (videoType : VideoType) : string :=
  match videoType with
  | shorts => "shorts"
  | longform => "longform"
  end.
Definition uploadPeriodName (period : UploadPeriod) : string :=
  match period with
  | all => "all"
  | month1 => "1month"
  | months3 => "3months"
  | months6 => "6months"
  | year1 => "1year"
  end.

(** [isNaN] *)
Definition isNaN (a : number) : bool :=
  match a with
  | NaN => true
  | Fin _ => false
  end.

(** [s.replace(/[^0-9]/g, "")] and [s.replace(/,/g, "")] *)
Fixpoint keepDigits (s : string) : string :=
  match s with
  | String c s' =>
      if isDigit c then String c (keepDigits s') else keepDigits s'
  | EmptyString => s
  end.
Fixpoint removeCommas (s : string) : string :=
  match s with
  | String c s' =>
      if Ascii.eqb c "," then removeCommas s' else String c (removeCommas s')
  | EmptyString => s
  end.

(** [parseInt(string, 10)]: no [0x] prefix is looked for. *)
Definition parseInt_10 (input : string) : number :=
  let s := trimStart input in
  let '(sign, s) :=
    match s with
    | String c r =>
        if Ascii.eqb c "-" then (-1, r)%Z
        else if Ascii.eqb c "+" then (1, r)%Z
        else (1, s)%Z
    | EmptyString => (1, s)%Z
    end in
  match readDigits 10 s None with
  | None => NaN
  | Some n => ofZ (sign * n)
  end.

(** ** The inputs *)

(** The [useState] cells a search reads. *)
Record Inputs : Type :=
  { apiKey : string;
    keyword : string;
    videoType : VideoType;
    uploadPeriod : UploadPeriod;
    minViewCountInput : string;
    maxSubscriberCount : option number }.

Definition initialInputs : Inputs :=
  {| apiKey := "";
     keyword := "";
     videoType := longform;
     uploadPeriod := all;
     minViewCountInput := "";
     maxSubscriberCount := None |}.

Definition setApiKey (val : string) (inputs : Inputs) : Inputs :=
  {| apiKey := val;
     keyword := keyword inputs;
     videoType := videoType inputs;
     uploadPeriod := uploadPeriod inputs;
     minViewCountInput := minViewCountInput inputs;
     maxSubscriberCount := maxSubscriberCount inputs |}.

Definition setMinViewCountInput (val : string) (inputs : Inputs) : Inputs :=
  {| apiKey := apiKey inputs;
     keyword := keyword inputs;
     videoType := videoType inputs;
     uploadPeriod := uploadPeriod inputs;
     minViewCountInput := val;
     maxSubscriberCount := maxSubscriberCount inputs |}.

(** [localStorage], as far as the page uses it: the item stored under
    [LOCAL_STORAGE_KEY], if any. *)
Definition LocalStorage : Type := option string.

(** [handleApiKeyChange] *)
Definition handleApiKeyChange (val : string)
    (state : Inputs * LocalStorage) : Inputs * LocalStorage :=
  (setApiKey val state.1,
   if negb (String.eqb (trim val) "") then Some (trim val) else None).

(** The effect that runs when the page is mounted. *)
Definition restoreApiKey (state : Inputs * LocalStorage)
  : Inputs * LocalStorage :=
  match Client.given state.2 with
  | Some stored => (setApiKey stored state.1, state.2)
  | None => state
  end.

(** [onChange] of the minimum view count field. *)
Definition handleMinViewCountChange (value : string) (inputs : Inputs)
  : Inputs :=
  setMinViewCountInput (keepDigits value) inputs.

(** ** [handleSearch] *)

Inductive Status : Type := idle | loading | success | error.

Record SearchState : Type :=
  { status : Status;
    videos : list Analysis.VideoResult;
    search_error : option string;
    total : nat;
    search_keyword : string;
    search_videoType : VideoType }.

Definition failed (s : SearchState) (message : string) : SearchState :=
  {| status := error;
     videos := videos s;
     search_error := Some message;
     total := total s;
     search_keyword := search_keyword s;
     search_videoType := search_videoType s |}.

(** The body of the request. *)
Definition requestBody (inputs : Inputs) : SearchRequestBody :=
  let parsedMinViews :=
    if negb (String.eqb (trim (minViewCountInput inputs)) "")
    then Some (parseInt_10 (removeCommas (minViewCountInput inputs)))
    else None in
  {| body_apiKey := Some (trim (apiKey inputs));
     body_keyword := Some (trim (keyword inputs));
     body_videoType := Some (videoTypeName (videoType inputs));
     body_uploadPeriod := Some (uploadPeriodName (uploadPeriod inputs));
     body_minViewCount :=
       match parsedMinViews with
       | Some n => if truthy n && negb (isNaN n) then Some n else None
       | None => None
       end;
     body_maxSubscriberCount := maxSubscriberCount inputs |}.

(** [res.ok] of a response of the handler. *)
Definition ok (response : NextResponse) : bool :=
  match response with
  | VideosResponse _ _ => true
  | ErrorResponse _ _ status => ((200 <=? status) && (status <=? 299))%Z
  end.

(** [handleSearch]; [server body] is the response to the request, [None]
    when [fetch] or [res.json()] rejects. *)
Definition handleSearch (server : SearchRequestBody → option NextResponse)
    (inputs : Inputs) (s : SearchState) : SearchState :=
  if String.eqb (trim (apiKey inputs)) "" then
    failed s "YouTube API Key를 입력해 주세요."
  else if String.eqb (trim (keyword inputs)) "" then
    failed s "검색할 키워드를 입력해 주세요."
  else
    let waiting :=
      {| status := loading;
         videos := [];
         search_error := None;
         total := 0%nat;
         search_keyword := trim (keyword inputs);
         search_videoType := videoType inputs |} in
    match server (requestBody inputs) with
    | None =>
        failed waiting
          "네트워크 오류가 발생했습니다. 인터넷 연결을 확인해 주세요."
    | Some response =>
        if negb (ok response) then
          failed waiting
            match response with
            | ErrorResponse message _ _ => message
            | VideosResponse _ _ => "알 수 없는 오류가 발생했습니다."
            end
        else
          {| status := success;
             videos :=
               match response with
               | VideosResponse videos _ => videos
               | ErrorResponse _ _ _ => []
               end;
             search_error := None;
             total :=
               match response with
               | VideosResponse _ total => total
               | ErrorResponse _ _ _ => 0%nat
               end;
             search_keyword := trim (keyword inputs);
             search_videoType := videoType inputs |}
    end.

End Page.

(* ===================================================================== *)
(** * Vocabulary of the further statements *)
(* ===================================================================== *)

Module Notions.
Import JS VideoType Client Analysis Route.
Local Open Scope string_scope.


(** A record without the two fields that come from the channel average
    map. *)
Definition withoutContribution (r : VideoResult) : VideoResult :=
  {| id := id r;
     title := title r;
     thumbnail := thumbnail r;
     channelId := channelId r;
     channelTitle := channelTitle r;
     publishedAt := publishedAt r;
     viewCount := viewCount r;
     likeCount := likeCount r;
     subscriberCount := subscriberCount r;
     totalVideoCount := totalVideoCount r;
     viewToSubscriberRatio := viewToSubscriberRatio r;
     likeToSubscriberRatio := likeToSubscriberRatio r;
     duration := duration r;
     performanceScore := performanceScore r;
     contributionScore := None;
     channelAvgViews := None |}.

(** The scale of the two scores: what a score of each value looks like. *)
Definition tier (s : Z) : ScoreInfo :=
  {| score := s;
     label := match s with
              | 5 => Excellent | 4 => Great | 3 => Good | 2 => Normal | _ => Bad
              end%Z;
     color := SCORE_PALETTE s |}.

(** The search items for which the loop body pushes a record, with the
    record. *)
Definition qualifying (searchItems : list YouTubeSearchItem)
    (videoItems : list YouTubeVideoItem)
    (channelItems : list YouTubeChannelItem) (videoType : VideoType)
    (channelAvgMap : gmap string number) (filters : BuildFilterOptions)
  : list VideoResult :=
  omap (joinAndScore (newMap (map (λ v, (video_id v, v)) videoItems))
          (newMap (map (λ c, (channel_id c, c)) channelItems))
          videoType channelAvgMap filters) searchItems.

(** What the [catch] of the handler makes of the outcome of its [try]
    block. *)
Definition settle (outcome : Promise NextResponse) : NextResponse :=
  match outcome with
  | inr response => response
  | inl (APIError err) =>
      ErrorResponse (message err) (Some (code err)) (statusMap (code err))
  | inl JsonSyntaxError =>
      ErrorResponse "서버 오류가 발생했습니다. 잠시 후 다시 시도해 주세요."
        None 500
  end.

(** The value a record has in the contribution column of the table. *)
Definition contributionRank (r : VideoResult) : Z :=
  match contributionScore r with
  | Some info => score info
  | None => -1
  end.

(** No character of the string is [c]. *)
Fixpoint lacks (c : ascii) (s : string) : bool :=
  match s with
  | String c' s' => negb (Ascii.eqb c' c) && lacks c s'
  | EmptyString => true
  end.

(** A response without the contribution fields of its records. *)
Definition withoutContributions (response : NextResponse) : NextResponse :=
  match response with
  | VideosResponse videos total =>
      VideosResponse (map withoutContribution videos) total
  | ErrorResponse _ _ _ => response
  end.

(** The request passes the three tests of the handler. *)
Definition wellFormed (body : SearchRequestBody) : Prop :=
  (∃ apiKey, body_apiKey body = Some apiKey ∧ trim apiKey ≠ "")
  ∧ (∃ keyword, body_keyword body = Some keyword ∧ trim keyword ≠ "")
  ∧ (body_videoType body = Some "shorts"
     ∨ body_videoType body = Some "longform").
End Notions.

(* ===================================================================== *)
(** * More sample data *)
(* ===================================================================== *)

Module More.
Import JS VideoType Client Analysis Route.
Local Open Scope string_scope.

(** [Sample.platform31] with a playlist endpoint that answers: every
    channel gets an average. *)
Definition platform31_sampled : Network :=
  {| fetchSearch := fetchSearch Sample.platform31;
     fetchVideos := fetchVideos Sample.platform31;
     fetchChannels := fetchChannels Sample.platform31;
     fetchPlaylistItems := λ _ _,
       Sample.ok200 (Some [ {| playlist_videoId := Some "v1" |} ]) |}.

(** The page after typing a keyword and a minimum view count. *)
Definition typed (keyword minViews : string) : Page.Inputs :=
  Page.handleMinViewCountChange minViews
    {| Page.apiKey := "KEY";
       Page.keyword := keyword;
       Page.videoType := longform;
       Page.uploadPeriod := Page.all;
       Page.minViewCountInput := "";
       Page.maxSubscriberCount := None |}.

(** The search state of a page that has not searched yet. *)
Definition idle : Page.SearchState :=
  {| Page.status := Page.idle;
     Page.videos := [];
     Page.search_error := None;
     Page.total := 0;
     Page.search_keyword := "";
     Page.search_videoType := longform |}.

End More.

(* ===================================================================== *)
(** * Properties *)
(* ===================================================================== *)

Import JS VideoType Client Analysis Route Vocabulary.
Local Open Scope string_scope.
Local Open Scope Z_scope.

(** ** Numbers *)

Lemma le_Fin (x y : Q) : le (Fin x) (Fin y) = true ↔ (x <= y)%Q.
Proof. apply Qle_bool_iff. Qed.

Lemma lt_Fin (x y : Q) : lt (Fin x) (Fin y) = true ↔ (x < y)%Q.
Proof.
  unfold lt. rewrite negb_true_iff, <- not_true_iff_false, Qle_bool_iff.
  split; [apply Qnot_le_lt | apply Qlt_not_le].
Qed.

Lemma ge_Fin (x y : Q) : ge (Fin x) (Fin y) = true ↔ (y <= x)%Q.
Proof. apply le_Fin. Qed.

Lemma gt_Fin (x y : Q) : gt (Fin x) (Fin y) = true ↔ (y < x)%Q.
Proof. apply lt_Fin. Qed.

Lemma ge_Fin_false (x y : Q) : ge (Fin x) (Fin y) = false ↔ (x < y)%Q.
Proof.
  rewrite <- not_true_iff_false, ge_Fin.
  split; [apply Qnot_le_lt | apply Qlt_not_le].
Qed.


(** ** Performance score *)

(** C2.  [calcPerformanceScore] on a finite ratio [r] (in particular on every
    non-negative one) answers by the five tiers: 5 Excellent from 5 up,
    4 Great on [3, 5), 3 Good on [1, 3), 2 Normal on [0.5, 1) and 1 Bad
    below 0.5.  A video with 1,000,000 views on a channel with 200,000
    subscribers is emitted with ratio 5.00 and score 5 Excellent. *)
Theorem calcPerformanceScore_tiers (r : Q) :
  ((5 <= r)%Q →
     calcPerformanceScore (Fin r)
     = {| score := 5; label := Excellent; color := "#f87171" |})
  ∧ ((3 <= r)%Q ∧ (r < 5)%Q →
     calcPerformanceScore (Fin r)
     = {| score := 4; label := Great; color := "#4ade80" |})
  ∧ ((1 <= r)%Q ∧ (r < 3)%Q →
     calcPerformanceScore (Fin r)
     = {| score := 3; label := Good; color := "#60a5fa" |})
  ∧ ((1 # 2 <= r)%Q ∧ (r < 1)%Q →
     calcPerformanceScore (Fin r)
     = {| score := 2; label := Normal; color := "#cbd5e1" |})
  ∧ ((r < 1 # 2)%Q →
     calcPerformanceScore (Fin r)
     = {| score := 1; label := Bad; color := "#64748b" |})
  ∧ (∃ rec ratio,
       buildAndFilterResults Sample.searchItems1 Sample.videoItems1
         Sample.channelItems1 longform ∅ default_filters default_maxResults
       = [rec]
       ∧ viewCount rec = ofZ 1000000
       ∧ subscriberCount rec = ofZ 200000
       ∧ viewToSubscriberRatio rec = Fin ratio
       ∧ (ratio == 5)%Q
       ∧ performanceScore rec
         = {| score := 5; label := Excellent; color := "#f87171" |}).
Proof.
  unfold calcPerformanceScore, half, ofZ, inject_Z.
  repeat split.
  - intros H. apply ge_Fin in H. by rewrite H.
  - intros [H3 H5]. apply ge_Fin_false in H5. apply ge_Fin in H3.
    by rewrite H5, H3.
  - intros [H1 H3]. apply ge_Fin in H1.
    assert (ge (Fin r) (Fin 5) = false) as ->
      by (apply ge_Fin_false; lra).
    apply ge_Fin_false in H3. by rewrite H3, H1.
  - intros [Hh H1]. apply ge_Fin in Hh.
    assert (ge (Fin r) (Fin 5) = false) as ->
      by (apply ge_Fin_false; lra).
    assert (ge (Fin r) (Fin 3) = false) as ->
      by (apply ge_Fin_false; lra).
    apply ge_Fin_false in H1. by rewrite H1, Hh.
  - intros Hh.
    assert (ge (Fin r) (Fin 5) = false) as ->
      by (apply ge_Fin_false; lra).
    assert (ge (Fin r) (Fin 3) = false) as ->
      by (apply ge_Fin_false; lra).
    assert (ge (Fin r) (Fin 1) = false) as ->
      by (apply ge_Fin_false; lra).
    apply ge_Fin_false in Hh. by rewrite Hh.
  - eexists _, _. split; [vm_compute; reflexivity|].
    repeat split.
Qed.

Lemma calcPerformanceScore_tiers_witness :
  calcPerformanceScore (Fin 5)
  = {| score := 5; label := Excellent; color := "#f87171" |}
  ∧ calcPerformanceScore (Fin (7 # 2))
    = {| score := 4; label := Great; color := "#4ade80" |}
  ∧ calcPerformanceScore (Fin (3 # 4))
    = {| score := 2; label := Normal; color := "#cbd5e1" |}.
Proof.
  destruct (calcPerformanceScore_tiers 5) as (Hfive & _).
  destruct (calcPerformanceScore_tiers (7 # 2)) as (_ & Hfour & _).
  destruct (calcPerformanceScore_tiers (3 # 4)) as (_ & _ & _ & Htwo & _).
  split; [|split].
  - apply Hfive. discriminate.
  - apply Hfour. split; [discriminate | reflexivity].
  - apply Htwo. split; [discriminate | reflexivity].
Defined.

(** ** Contribution score *)

Lemma calcContributionScore_positive (views a : Q) :
  (0 < a)%Q →
  calcContributionScore (Fin views) (Fin a)
  = let ratio := Fin (views / a) in
    if ge ratio (Fin 10) then
      Some {| score := 5; label := Excellent; color := "#f87171" |}
    else if ge ratio (Fin 5) then
      Some {| score := 4; label := Great; color := "#4ade80" |}
    else if ge ratio (Fin 1) then
      Some {| score := 3; label := Good; color := "#60a5fa" |}
    else if ge ratio (Fin (1 # 2)) then
      Some {| score := 2; label := Normal; color := "#cbd5e1" |}
    else
      Some {| score := 1; label := Bad; color := "#64748b" |}.
Proof.
  intros Ha. unfold calcContributionScore, half, ofZ, inject_Z, div.
  assert (le (Fin a) (Fin 0) = false) as ->.
  { apply not_true_iff_false. rewrite le_Fin. lra. }
  assert (Qeq_bool a 0 = false) as ->.
  { apply not_true_iff_false. rewrite Qeq_bool_iff. lra. }
  reflexivity.
Qed.



(** ** Durations *)

Lemma isDigit_facts (c : ascii) :
  isDigit c = true →
  isWhiteSpace c = false
  ∧ Ascii.eqb c "-" = false ∧ Ascii.eqb c "+" = false
  ∧ Ascii.eqb c "x" = false ∧ Ascii.eqb c "X" = false
  ∧ ∃ d, 0 ≤ d ∧ digitValue 10 c = Some d.
Proof.
  destruct c as [[] [] [] [] [] [] [] []]; vm_compute; intros [=];
    repeat split; eexists; (split; [|reflexivity]); discriminate.
Qed.

Lemma spanDigits_allDigits (s : string) : allDigits (spanDigits s).1 = true.
Proof.
  induction s as [|c s IH]; [done|].
  simpl. destruct (isDigit c) eqn:Hc; [|done].
  destruct (spanDigits s) as [ds r]. simpl in *. by rewrite Hc, IH.
Qed.

Lemma readDigits_allDigits (s : string) (a : Z) :
  allDigits s = true → 0 ≤ a →
  ∃ n, 0 ≤ n ∧ readDigits 10 s (Some a) = Some n.
Proof.
  revert a. induction s as [|c s IH]; intros a Hs Ha; [by eauto|].
  simpl in Hs. apply andb_true_iff in Hs as [Hc Hs].
  destruct (isDigit_facts c Hc) as (_ & _ & _ & _ & _ & d & Hd & Hv).
  simpl. rewrite Hv. apply IH; [done|]. simpl. lia.
Qed.

Lemma parseInt_allDigits (c : ascii) (s : string) :
  allDigits (String c s) = true →
  ∃ n, 0 ≤ n ∧ parseInt (String c s) = ofZ n.
Proof.
  intros Hs. simpl in Hs. apply andb_true_iff in Hs as [Hc Hs].
  destruct (isDigit_facts c Hc) as (Hw & Hm & Hp & _ & _ & d & Hd & Hv).
  assert (∃ n, 0 ≤ n ∧ readDigits 10 (String c s) None = Some n)
    as (n & Hn & Hread).
  { simpl. rewrite Hv. apply readDigits_allDigits; [done|]. simpl. lia. }
  exists n. split; [done|].
  unfold parseInt. simpl trimStart. rewrite Hw, Hm, Hp.
  destruct s as [|c1 s].
  - rewrite Hread. f_equal. f_equal. lia.
  - simpl in Hs. apply andb_true_iff in Hs as [Hc1 _].
    destruct (isDigit_facts c1 Hc1) as (_ & _ & _ & Hx & HX & _).
    rewrite Hx, HX, andb_false_r. rewrite Hread. f_equal. f_equal. lia.
Qed.

Lemma group_capture (unit : ascii) (s : string) :
  ∃ n, 0 ≤ n ∧ parseInt (default "0" (group unit s).1) = ofZ n.
Proof.
  unfold group. pose proof (spanDigits_allDigits s) as Hds.
  destruct (spanDigits s) as [[|d ds] [|c r]]; simpl in *;
    try (exists 0; split; [lia | reflexivity]).
  destruct (Ascii.eqb c unit); simpl.
  - by apply parseInt_allDigits.
  - exists 0. split; [lia | reflexivity].
Qed.

(** The decoded duration is a non-negative whole number of seconds. *)
Lemma parseDurationToSeconds_nonneg (iso8601 : string) :
  ∃ n, 0 ≤ n ∧ parseDurationToSeconds iso8601 = ofZ n.
Proof.
  unfold parseDurationToSeconds, matchDuration.
  destruct (afterPT iso8601) as [r|]; [|exists 0; split; [lia | reflexivity]].
  destruct (group_capture "H" r) as (h & Hh & Eh).
  destruct (group "H" r) as [m1 r1]. simpl in Eh.
  destruct (group_capture "M" r1) as (m & Hm & Em).
  destruct (group "M" r1) as [m2 r2]. simpl in Em.
  destruct (group_capture "S" r2) as (s & Hs & Es).
  destruct (group "S" r2) as [m3 r3]. simpl in Es.
  rewrite Eh, Em, Es.
  exists (h * 3600 + m * 60 + s). split; [lia|].
  unfold ofZ, inject_Z, add, mul, Qplus, Qmult. simpl.
  f_equal. f_equal. lia.
Qed.

(** C3 (amended).  The decoded duration of every string [d] is a whole
    number [n >= 0] of seconds; [d] matches [shorts] exactly when
    [0 < n <= 180] and matches [longform] exactly when [n > 180].  So 180
    seconds is short-form, 181 seconds is long-form, and a duration that
    decodes to 0 matches neither category. *)
Theorem matchesVideoType_threshold (d : string) :
  ∃ n : Z,
    0 ≤ n
    ∧ parseDurationToSeconds d = ofZ n
    ∧ (matchesVideoType d shorts = true ↔ 0 < n ≤ 180)
    ∧ (matchesVideoType d longform = true ↔ 180 < n)
    ∧ (n = 180 → matchesVideoType d shorts = true
                 ∧ matchesVideoType d longform = false)
    ∧ (n = 181 → matchesVideoType d shorts = false
                 ∧ matchesVideoType d longform = true)
    ∧ (n = 0 → matchesVideoType d shorts = false
               ∧ matchesVideoType d longform = false).
Proof.
  destruct (parseDurationToSeconds_nonneg d) as (n & Hn & E).
  exists n. unfold matchesVideoType. rewrite E. unfold ofZ.
  rewrite andb_true_iff, !gt_Fin, le_Fin, <- !Zlt_Qlt, <- Zle_Qle.
  repeat split; try tauto; subst n; reflexivity.
Qed.

Lemma matchesVideoType_threshold_witness :
  matchesVideoType "PT3M" shorts = true
  ∧ matchesVideoType "PT3M" longform = false.
Proof.
  destruct (matchesVideoType_threshold "PT3M")
    as (n & _ & Hseconds & _ & _ & Hboundary & _).
  apply Hboundary. vm_compute in Hseconds. by injection Hseconds.
Defined.

(** C3, as stated, fails: ["PT0S"] decodes to 0 seconds and is neither
    short-form nor long-form. *)
Lemma zero_seconds_matches_no_type :
  parseDurationToSeconds "PT0S" = ofZ 0
  ∧ matchesVideoType "PT0S" shorts = false
  ∧ matchesVideoType "PT0S" longform = false.
Proof. repeat split. Qed.

Example duration_180_is_shorts :
  parseDurationToSeconds "PT3M" = ofZ 180
  ∧ matchesVideoType "PT3M" shorts = true
  ∧ matchesVideoType "PT3M" longform = false.
Proof. repeat split. Qed.

Example duration_181_is_longform :
  parseDurationToSeconds "PT3M1S" = ofZ 181
  ∧ matchesVideoType "PT3M1S" shorts = false
  ∧ matchesVideoType "PT3M1S" longform = true.
Proof. repeat split. Qed.

(** ** Error translation *)

Lemma youtubeFetch_not_ok {T} (res : Response T) endpoint params apiKey :
  res_ok res = false →
  youtubeFetch (λ _ _, Some res) endpoint params apiKey
  = inl (APIError (translateError (res_status res) (errorReason res)
                     (errorMessage res))).
Proof.
  intros Hok. unfold youtubeFetch, errorReason, errorMessage, translateError.
  rewrite Hok. simpl negb. cbv iota.
  destruct (res_json res) as [|r m data]; simpl; repeat case_match; done.
Qed.

(** C7.  [youtubeFetch] translates every outcome of the transport.  No
    response at all is a NETWORK_ERROR.  A response that is not ok is, in
    this order: INVALID_API_KEY when its status is 400 or its reason is a
    malformed-key reason; QUOTA_EXCEEDED when its status is 403 with a
    quota reason; FORBIDDEN for any other 403; NOT_FOUND for a 404; and
    UNKNOWN, with the upstream message, for everything else.  An ok
    response is returned as data, and an empty or absent [items] list makes
    every operation return the empty list. *)
Theorem youtubeFetch_error_taxonomy :
  (∀ T endpoint params apiKey,
     ∃ e, youtubeFetch (T := T) (λ _ _, None) endpoint params apiKey
          = inl (APIError e)
          ∧ code e = NETWORK_ERROR ∧ status e = None)
  ∧ (∀ T (res : Response T) endpoint params apiKey,
       res_ok res = false →
       ∃ e, youtubeFetch (λ _ _, Some res) endpoint params apiKey
            = inl (APIError e)
            ∧ status e = Some (res_status res)
            ∧ (res_status res = 400 ∨ malformedKeyReason (errorReason res) →
               code e = INVALID_API_KEY)
            ∧ (res_status res = 403 ∧ quotaReason (errorReason res) →
               code e = QUOTA_EXCEEDED)
            ∧ (res_status res = 403 ∧ ¬ quotaReason (errorReason res)
               ∧ ¬ malformedKeyReason (errorReason res) →
               code e = FORBIDDEN)
            ∧ (res_status res = 404 ∧ ¬ malformedKeyReason (errorReason res) →
               code e = NOT_FOUND)
            ∧ (res_status res ≠ 400 ∧ res_status res ≠ 403
               ∧ res_status res ≠ 404
               ∧ ¬ malformedKeyReason (errorReason res) →
               code e = UNKNOWN ∧ message e = errorMessage res))
  ∧ (∀ T (res : Response T) endpoint params apiKey r m data,
       res_ok res = true → res_json res = Parsed r m data →
       youtubeFetch (λ _ _, Some res) endpoint params apiKey = inr data)
  ∧ (∀ res params r m token found,
       res_ok res = true →
       res_json res
       = Parsed r m {| data_searchItems := found; data_nextPageToken := token |} →
       found = None ∨ found = Some [] →
       searchVideos (λ _ _, Some res) params
       = inr {| items := []; nextPageToken := token |})
  ∧ (∀ res apiKey ids r m found,
       res_ok res = true → res_json res = Parsed r m found →
       found = None ∨ found = Some [] →
       getVideoDetails (λ _ _, Some res) apiKey ids = inr [])
  ∧ (∀ res apiKey ids r m found,
       res_ok res = true → res_json res = Parsed r m found →
       found = None ∨ found = Some [] →
       getChannelDetails (λ _ _, Some res) apiKey ids = inr [])
  ∧ (∀ res apiKey playlistId maxResults r m found,
       res_ok res = true → res_json res = Parsed r m found →
       found = None ∨ found = Some [] →
       getPlaylistItems (λ _ _, Some res) apiKey playlistId maxResults = inr []).
Proof.
  split; [|split; [|split; [|split; [|split; [|split]]]]].
  - intros. eexists. unfold youtubeFetch. by repeat split.
  - intros T res endpoint params apiKey Hok.
    rewrite youtubeFetch_not_ok by done.
    unfold translateError, malformedKeyReason, quotaReason.
    destruct (Z.eqb_spec (res_status res) 400),
      (Z.eqb_spec (res_status res) 403),
      (Z.eqb_spec (res_status res) 404),
      (String.eqb_spec (errorReason res) "keyInvalid"),
      (String.eqb_spec (errorReason res) "badRequest"),
      (String.eqb_spec (errorReason res) "quotaExceeded"),
      (String.eqb_spec (errorReason res) "dailyLimitExceeded");
      simpl; eexists; (split; [reflexivity|]); simpl; intuition congruence.
  - intros T res endpoint params apiKey r m data Hok Hjson.
    unfold youtubeFetch. by rewrite Hok, Hjson.
  - intros res params r m token found Hok Hjson Hfound.
    unfold searchVideos, youtubeFetch. rewrite Hok, Hjson. simpl.
    by destruct Hfound as [-> | ->].
  - intros res apiKey ids r m found Hok Hjson Hfound.
    unfold getVideoDetails, youtubeFetch. rewrite Hok, Hjson. simpl.
    case_match; [done|]. by destruct Hfound as [-> | ->].
  - intros res apiKey ids r m found Hok Hjson Hfound.
    unfold getChannelDetails, youtubeFetch. rewrite Hok, Hjson. simpl.
    case_match; [done|]. by destruct Hfound as [-> | ->].
  - intros res apiKey playlistId maxResults r m found Hok Hjson Hfound.
    unfold getPlaylistItems, youtubeFetch. rewrite Hok, Hjson. simpl.
    by destruct Hfound as [-> | ->].
Qed.

Lemma youtubeFetch_error_taxonomy_witness :
  ∃ e,
    youtubeFetch (T := SearchData)
      (λ _ _, Some {| res_status := 403;
                      res_json := Parsed (Some "quotaExceeded")
                                    (Some "Quota exceeded.")
                                    {| data_searchItems := None;
                                       data_nextPageToken := None |} |})
      "search" [] "KEY"
    = inl (APIError e)
    ∧ code e = QUOTA_EXCEEDED.
Proof.
  destruct youtubeFetch_error_taxonomy as (_ & Hnot_ok & _).
  destruct (Hnot_ok SearchData
              {| res_status := 403;
                 res_json := Parsed (Some "quotaExceeded")
                               (Some "Quota exceeded.")
                               {| data_searchItems := None;
                                  data_nextPageToken := None |} |}
              "search" [] "KEY" eq_refl)
    as (e & Hthrown & _ & _ & Hquota & _).
  exists e. split; [exact Hthrown|].
  apply Hquota. split; [reflexivity | left; reflexivity].
Defined.

(** ** The join *)

Lemma newMap_lookup {V} (key : V → string) (l : list V) (k : string) (v : V) :
  newMap (map (λ x, (key x, x)) l) !! k = Some v → v ∈ l ∧ key v = k.
Proof.
  unfold newMap.
  assert (∀ m0 : gmap string V,
            foldl (λ m e, <[e.1 := e.2]> m) m0 (map (λ x, (key x, x)) l) !! k
            = Some v →
            (v ∈ l ∧ key v = k) ∨ m0 !! k = Some v) as Hgen.
  { induction l as [|x l IH]; intros m0 Hlook; [by right|].
    simpl in Hlook. apply IH in Hlook as [[Hin Hk] | Hlook].
    - left. split; [by right | done].
    - apply lookup_insert_Some in Hlook as [[<- <-] | [_ Hlook]].
      + left. split; [by left | done].
      + by right. }
  intros Hlook. apply Hgen in Hlook as [? | Hlook]; [done|].
  by rewrite lookup_empty in Hlook.
Qed.

(** ** The sort is a permutation *)

Section SortPermutation.
Context {A : Type} (comparefn : A → A → number).

Lemma insert_Permutation (x : A) (l : list A) :
  JS.insert comparefn x l ≡ₚ x :: l.
Proof.
  induction l as [|y l IH]; [done|].
  simpl. case_match; [|done].
  rewrite IH. apply perm_swap.
Qed.

Lemma sort_Permutation (l : list A) : sort comparefn l ≡ₚ l.
Proof.
  induction l as [|x l IH]; [done|].
  simpl. by rewrite insert_Permutation, IH.
Qed.
End SortPermutation.

(** ** The loop *)

Section Collect.
Context (videoMap : gmap string YouTubeVideoItem)
        (channelMap : gmap string YouTubeChannelItem)
        (videoType : VideoType)
        (channelAvgMap : gmap string number)
        (filters : BuildFilterOptions)
        (maxResults : number).

(** Whatever the loop returns was in the accumulator or was pushed for one
    of the search items. *)
Lemma collect_elem (searchItems : list YouTubeSearchItem)
    (results : list VideoResult) (r : VideoResult) :
  r ∈ collect videoMap channelMap videoType channelAvgMap filters maxResults
        searchItems results →
  r ∈ results
  ∨ ∃ searchItem,
      searchItem ∈ searchItems
      ∧ joinAndScore videoMap channelMap videoType channelAvgMap filters
          searchItem = Some r.
Proof.
  revert results. induction searchItems as [|s searchItems IH];
    intros results Hr; simpl in Hr; [by left|].
  destruct (ge _ maxResults); [by left|].
  destruct (joinAndScore _ _ _ _ _ s) as [r'|] eqn:Hs.
  - apply IH in Hr as [Hr | (s' & Hin & Hs')].
    + apply elem_of_app in Hr as [Hr | Hr]; [by left|].
      apply list_elem_of_singleton in Hr as ->.
      right. exists s. split; [by left | done].
    + right. exists s'. split; [by right | done].
  - apply IH in Hr as [Hr | (s' & Hin & Hs')]; [by left|].
    right. exists s'. split; [by right | done].
Qed.

(** The accumulator only grows at its end. *)
Lemma collect_prefix (searchItems : list YouTubeSearchItem)
    (results : list VideoResult) :
  ∃ pushed,
    collect videoMap channelMap videoType channelAvgMap filters maxResults
      searchItems results
    = (results ++ pushed)%list.
Proof.
  revert results. induction searchItems as [|s searchItems IH];
    intros results; simpl.
  - exists []. by rewrite app_nil_r.
  - destruct (ge _ maxResults); [exists []; by rewrite app_nil_r|].
    destruct (joinAndScore _ _ _ _ _ s) as [r'|]; [|apply IH].
    destruct (IH (results ++ [r'])%list) as [pushed ->].
    exists (r' :: pushed). by rewrite <- app_assoc.
Qed.
End Collect.


(** Every emitted record was pushed for one of the search items. *)
Lemma buildAndFilterResults_elem searchItems videoItems channelItems
    videoType channelAvgMap filters maxResults (r : VideoResult) :
  r ∈ buildAndFilterResults searchItems videoItems channelItems videoType
        channelAvgMap filters maxResults →
  ∃ searchItem,
    searchItem ∈ searchItems
    ∧ joinAndScore (newMap (map (λ v, (video_id v, v)) videoItems))
        (newMap (map (λ c, (channel_id c, c)) channelItems))
        videoType channelAvgMap filters searchItem = Some r.
Proof.
  unfold buildAndFilterResults. rewrite sort_Permutation.
  intros Hr. apply collect_elem in Hr as [Hr | Hr]; [|done].
  by apply elem_of_nil in Hr.
Qed.

(** What a pushed record says about the search item it was pushed for. *)
Lemma joinAndScore_Some videoMap channelMap videoType channelAvgMap filters
    (searchItem : YouTubeSearchItem) (r : VideoResult) :
  joinAndScore videoMap channelMap videoType channelAvgMap filters searchItem
  = Some r →
  ∃ videoDetail channelDetail,
    videoMap !! search_videoId searchItem = Some videoDetail
    ∧ channelMap !! search_channelId searchItem = Some channelDetail
    ∧ matchesVideoType (video_duration videoDetail) videoType = true
    ∧ id r = search_videoId searchItem
    ∧ channelId r = search_channelId searchItem
    ∧ duration r = video_duration videoDetail
    ∧ viewCount r = parseInt (default "0" (video_viewCount videoDetail))
    ∧ subscriberCount r
      = parseInt (default "0" (channel_subscriberCount channelDetail))
    ∧ strictEq (subscriberCount r) (ofZ 0) = false
    ∧ lt (viewCount r) (subscriberCount r) = false
    ∧ (∀ cap, maxSubscriberCount filters = Some cap →
              gt (subscriberCount r) cap = false)
    ∧ (∀ floor, minViewCount filters = Some floor →
                lt (viewCount r) floor = false)
    ∧ viewToSubscriberRatio r
      = parseFloat_toFixed (div (viewCount r) (subscriberCount r)) 2
    ∧ performanceScore r = calcPerformanceScore (viewToSubscriberRatio r)
    ∧ channelAvgViews r = channelAvgMap !! channelId r
    ∧ contributionScore r
      = match channelAvgViews r with
        | Some avg =>
            if gt avg (ofZ 0) then calcContributionScore (viewCount r) avg
            else None
        | None => None
        end.
Proof.
  unfold joinAndScore. intros Hr.
  destruct (videoMap !! _) as [videoDetail|]; [|done].
  destruct (channelMap !! _) as [channelDetail|]; [|done].
  destruct (matchesVideoType _ _) eqn:Hmatch; [|done]. cbn [negb] in Hr.
  destruct (strictEq _ _) eqn:Hzero; [done|].
  destruct (match maxSubscriberCount filters with
            | Some cap => _ | None => _ end) eqn:Hcap; [done|].
  destruct (lt _ _) eqn:Hcore; [done|].
  destruct (match minViewCount filters with
            | Some floor => _ | None => _ end) eqn:Hfloor; [done|].
  injection Hr as <-. exists videoDetail, channelDetail. cbn.
  repeat match goal with |- _ ∧ _ => split end; try done.
  - intros cap Hc. by rewrite Hc in Hcap.
  - intros floor Hf. by rewrite Hf in Hfloor.
Qed.

(** ** Contribution score in the emitted records *)

(** A positive channel average always rates. *)
Lemma calcContributionScore_is_Some (views avg : number) :
  gt avg (ofZ 0) = true → is_Some (calcContributionScore views avg).
Proof.
  intros Hpos. unfold calcContributionScore.
  destruct avg as [|a]; [done|].
  unfold ofZ, inject_Z in *. apply gt_Fin in Hpos.
  assert (le (Fin a) (Fin 0) = false) as ->.
  { apply not_true_iff_false. rewrite le_Fin. lra. }
  repeat case_match; eauto.
Qed.

(** Stage 3 records positive averages only. *)
Lemma estimateChannels_positive net apiKey videoType channelItems
    (k : string) (avg : number) :
  estimateChannels net apiKey videoType channelItems !! k = Some avg →
  gt avg (ofZ 0) = true.
Proof.
  unfold estimateChannels.
  generalize (List.filter
                (λ c, bool_decide (is_Some (given (channel_uploads c))))
                channelItems) as channels.
  assert (∀ channels (m0 : gmap string number),
            (∀ k v, m0 !! k = Some v → gt v (ofZ 0) = true) →
            ∀ k v, foldl (estimateChannel net apiKey videoType) m0 channels !! k
                   = Some v → gt v (ofZ 0) = true) as Hgen.
  { induction channels as [|c channels IH]; intros m0 Hm0; [done|].
    simpl. apply IH. unfold estimateChannel.
    repeat case_match; try done.
    intros k' v' Hlook.
    apply lookup_insert_Some in Hlook as [[_ <-] | [_ Hlook]]; eauto. }
  intros channels. apply Hgen. intros k' v'. by rewrite lookup_empty.
Qed.

(** C6.  In every emitted record the contribution score is present exactly
    when the record carries a channel average that is greater than 0; the
    average carried is the entry of the record's channel in the channel
    average map, and without an entry both fields are null.  With the map
    built by stage 3 of the handler, which records positive averages only,
    the score is present exactly when the channel has an entry. *)
Theorem contributionScore_presence searchItems videoItems channelItems
    videoType channelAvgMap filters maxResults (r : VideoResult) :
  r ∈ buildAndFilterResults searchItems videoItems channelItems videoType
        channelAvgMap filters maxResults →
  (is_Some (contributionScore r)
   ↔ ∃ avg, channelAvgViews r = Some avg ∧ gt avg (ofZ 0) = true)
  ∧ channelAvgViews r = channelAvgMap !! channelId r
  ∧ (channelAvgMap !! channelId r = None →
     contributionScore r = None ∧ channelAvgViews r = None)
  ∧ (∀ net apiKey sampled,
       channelAvgMap = estimateChannels net apiKey videoType sampled →
       (is_Some (contributionScore r) ↔ is_Some (channelAvgMap !! channelId r))).
Proof.
  intros Hr. apply buildAndFilterResults_elem in Hr as (searchItem & _ & Hr).
  apply joinAndScore_Some in Hr
    as (vd & cd & _ & _ & _ & _ & _ & _ & _ & _ & _ & _ & _ & _ & _ & _ & Havg & Hc).
  assert (is_Some (contributionScore r)
          ↔ ∃ avg, channelAvgViews r = Some avg ∧ gt avg (ofZ 0) = true) as Hiff.
  { rewrite Hc. destruct (channelAvgViews r) as [avg|].
    - destruct (gt avg (ofZ 0)) eqn:Hpos.
      + split; [by eauto | intros _; by apply calcContributionScore_is_Some].
      + split; [by intros [? [=]] | by intros (? & [= <-] & ?); congruence].
    - split; [by intros [? [=]] | by intros (? & [=] & _)]. }
  split; [done|]. split; [done|]. split.
  - intros Hnone. rewrite Hc, Havg, Hnone. done.
  - intros net apiKey sampled ->. rewrite Hiff, Havg. split.
    + intros (avg & -> & _). eauto.
    + intros [avg Hsome]. exists avg. split; [done|].
      by apply estimateChannels_positive in Hsome.
Qed.

Lemma sample1_emitted :
  Sample.record1
  ∈ buildAndFilterResults Sample.searchItems1 Sample.videoItems1
      Sample.channelItems1 longform Sample.averages1 default_filters
      default_maxResults.
Proof. vm_compute. left. Defined.

Lemma contributionScore_presence_witness :
  (is_Some (contributionScore Sample.record1)
   ↔ ∃ avg, channelAvgViews Sample.record1 = Some avg
            ∧ gt avg (ofZ 0) = true)
  ∧ channelAvgViews Sample.record1
    = Sample.averages1 !! channelId Sample.record1
  ∧ (Sample.averages1 !! channelId Sample.record1 = None →
     contributionScore Sample.record1 = None
     ∧ channelAvgViews Sample.record1 = None)
  ∧ (∀ net apiKey sampled,
       Sample.averages1 = estimateChannels net apiKey longform sampled →
       (is_Some (contributionScore Sample.record1)
        ↔ is_Some (Sample.averages1 !! channelId Sample.record1))).
Proof.
  exact (contributionScore_presence Sample.searchItems1 Sample.videoItems1
           Sample.channelItems1 longform Sample.averages1 default_filters
           default_maxResults Sample.record1 sample1_emitted).
Defined.

(** ** The core filter *)

(** Unsigned decimal numerals, as the platform writes its counters, are
    counts. *)
Lemma numeral_isCount (c : ascii) (s : string) :
  allDigits (String c s) = true → isCount (Some (String c s)).
Proof. intros Hs. by apply parseInt_allDigits. Qed.

Lemma absent_isCount : isCount None.
Proof. exists 0. split; [lia | reflexivity]. Qed.

Lemma isCount_isNumber (s : option string) : isCount s → isNumber s.
Proof. intros (n & _ & E). unfold isNumber. by rewrite E. Qed.

(** C1 (amended).  Every emitted record was built from a search item of the
    input and from a video detail and a channel detail of the input with
    that item's ids; its subscriber count is not 0 and its view count is
    not below its subscriber count.  When the view count string of that
    video reads as a number and the subscriber count string of that channel
    reads as a whole number that is not negative, the record satisfies
    viewCount >= subscriberCount >= 1. *)
Theorem emitted_record_invariant searchItems videoItems channelItems
    videoType channelAvgMap filters maxResults (r : VideoResult) :
  r ∈ buildAndFilterResults searchItems videoItems channelItems videoType
        channelAvgMap filters maxResults →
  ∃ searchItem videoDetail channelDetail,
    searchItem ∈ searchItems
    ∧ videoDetail ∈ videoItems
    ∧ channelDetail ∈ channelItems
    ∧ joins r searchItem videoDetail channelDetail
    ∧ strictEq (subscriberCount r) (ofZ 0) = false
    ∧ lt (viewCount r) (subscriberCount r) = false
    ∧ (isNumber (video_viewCount videoDetail) →
       isCount (channel_subscriberCount channelDetail) →
       ge (subscriberCount r) (ofZ 1) = true
       ∧ ge (viewCount r) (subscriberCount r) = true).
Proof.
  intros Hr. apply buildAndFilterResults_elem in Hr as (searchItem & Hin & Hr).
  apply joinAndScore_Some in Hr
    as (vd & cd & Hvd & Hcd & _ & Hid & Hch & _ & Hv & Hs & Hzero & Hcore & _).
  apply newMap_lookup in Hvd as [Hvd Hvid]. apply newMap_lookup in Hcd as [Hcd Hcid].
  exists searchItem, vd, cd. unfold joins.
  repeat match goal with |- _ ∧ _ => split end; try done.
  intros Hnum (n & Hn & Hcount). unfold isNumber in Hnum.
  rewrite Hs, Hcount in *. rewrite Hv in *.
  destruct (parseInt (default "0" (video_viewCount vd))) as [|v]; [done|].
  unfold ofZ in *. apply not_true_iff_false in Hzero, Hcore.
  unfold strictEq in Hzero. rewrite Qeq_bool_iff in Hzero.
  rewrite lt_Fin in Hcore. rewrite !ge_Fin.
  assert (n ≠ 0) as Hn0 by (intros ->; by apply Hzero).
  split.
  - rewrite <- Zle_Qle. lia.
  - by apply Qnot_lt_le.
Qed.

Lemma emitted_record_invariant_witness :
  ge (subscriberCount Sample.record1) (ofZ 1) = true
  ∧ ge (viewCount Sample.record1) (subscriberCount Sample.record1) = true.
Proof.
  destruct (emitted_record_invariant Sample.searchItems1 Sample.videoItems1
              Sample.channelItems1 longform Sample.averages1 default_filters
              default_maxResults Sample.record1 sample1_emitted)
    as (searchItem & videoDetail & channelDetail
        & _ & Hvideo & Hchannel & _ & _ & _ & Hnumeric).
  apply list_elem_of_singleton in Hvideo, Hchannel. subst.
  apply Hnumeric.
  - discriminate.
  - exists 200000. split; [lia | reflexivity].
Defined.

(** C1, as stated, fails: a channel whose subscriber count string is ["-5"]
    passes the [=== 0] guard and the core filter, and its record is
    emitted with subscriberCount = -5. *)
Lemma negative_subscriberCount_is_emitted :
  ∃ r,
    buildAndFilterResults
      [Sample.searchItem "v1" "c1"]
      [Sample.video "v1" "PT10M" (Some "0")]
      [Sample.channel "c1" (Some "-5")]
      longform ∅ default_filters default_maxResults = [r]
    ∧ viewCount r = ofZ 0
    ∧ subscriberCount r = ofZ (-5)
    ∧ ge (subscriberCount r) (ofZ 1) = false.
Proof. eexists. split; [vm_compute; reflexivity|]. repeat split. Qed.

(** ** The result budget of the handler *)





(** ** Channel averages *)





(** ** The sort orders and is stable *)

Section SortOrder.
Context {A : Type} (comparefn : A → A → number).

Local Abbreviation notAfter := (notAfter comparefn).

Section Sorted.
Context (P : A → Prop).
Hypothesis notAfter_total : ∀ a b, P a → P b → notAfter a b ∨ notAfter b a.
Hypothesis notAfter_trans :
  ∀ a b c, P a → P b → P c → notAfter a b → notAfter b c → notAfter a c.

Lemma insert_StronglySorted (x : A) (l : list A) :
  P x → Forall P l → StronglySorted notAfter l →
  StronglySorted notAfter (JS.insert comparefn x l).
Proof.
  intros Hx HP Hl. induction Hl as [|y l Hl IH Hy]; cbn [JS.insert].
  - repeat constructor.
  - apply Forall_cons in HP as [HPy HPl].
    destruct (gt (comparefn x y) (ofZ 0)) eqn:Hxy.
    + constructor; [by apply IH|].
      rewrite insert_Permutation. constructor; [|done].
      destruct (notAfter_total x y) as [Hc | Hc]; [done | done | | done].
      unfold notAfter in Hc. congruence.
    + constructor; [by constructor|].
      constructor; [done|].
      rewrite Forall_forall in Hy, HPl |- *. intros z Hz.
      apply (notAfter_trans x y z); auto.
Qed.

Lemma sort_StronglySorted (l : list A) :
  Forall P l → StronglySorted notAfter (sort comparefn l).
Proof.
  induction 1 as [|x l Hx HP IH]; [constructor|].
  change (sort comparefn (x :: l))
    with (JS.insert comparefn x (sort comparefn l)).
  apply insert_StronglySorted; [done | | done].
  by rewrite sort_Permutation.
Qed.
End Sorted.

Section Stable.
Context (p : A → bool).
Hypothesis same_class :
  ∀ x y, p x = true → p y = true → notAfter x y.


End Stable.
End SortOrder.

(** ** The comparator of [buildAndFilterResults] *)

Lemma gt_Fin_false (x y : Q) : gt (Fin x) (Fin y) = false ↔ (x <= y)%Q.
Proof.
  rewrite <- not_true_iff_false, gt_Fin.
  split; [apply Qnot_lt_le | apply Qle_not_lt].
Qed.

(** On records whose ratio is a number the comparator keeps [a] in front
    of [b] exactly when [a] ranks before [b]. *)
Lemma byScoreThenRatio_finite (a b : VideoResult) (qa qb : Q) :
  viewToSubscriberRatio a = Fin qa →
  viewToSubscriberRatio b = Fin qb →
  notAfter byScoreThenRatio a b ↔ rankedBefore a b.
Proof.
  intros Ha Hb.
  unfold notAfter, rankedBefore, keyBefore, sortKey, byScoreThenRatio,
    JS.or, truthy, sub, ofZ.
  rewrite Ha, Hb. cbn [fst snd].
  set (sa := score (performanceScore a)). set (sb := score (performanceScore b)).
  rewrite ge_Fin.
  destruct (Qeq_bool (inject_Z sb - inject_Z sa) 0) eqn:Hs; cbn [negb].
  - apply Qeq_bool_iff in Hs.
    assert (sb = sa) as Heq by (apply inject_Z_injective; lra).
    rewrite gt_Fin_false. unfold inject_Z. split.
    + intros Hq. right. split; [done | lra].
    + intros [Hlt | [_ Hq]]; [lia | lra].
  - apply Qeq_bool_neq in Hs.
    assert (sb ≠ sa) as Hne by (intros ->; apply Hs; lra).
    rewrite gt_Fin_false. split.
    + intros Hq. left.
      assert (inject_Z sb <= inject_Z sa)%Q as Hle by (unfold inject_Z in *; lra).
      rewrite <- Zle_Qle in Hle. lia.
    + intros [Hlt | [Heq _]]; [|lia].
      assert (inject_Z sb <= inject_Z sa)%Q as Hle by (rewrite <- Zle_Qle; lia).
      unfold inject_Z in *. lra.
Qed.

Lemma keyBefore_total (s1 s2 : Z) (q1 q2 : Q) :
  keyBefore (s1, Fin q1) (s2, Fin q2) ∨ keyBefore (s2, Fin q2) (s1, Fin q1).
Proof.
  unfold keyBefore. cbn [fst snd]. rewrite !ge_Fin.
  destruct (Z.lt_trichotomy s1 s2) as [? | [-> | ?]]; [by right; left | | by left; left].
  destruct (Qlt_le_dec q1 q2) as [Hq | Hq].
  - right. right. split; [done | lra].
  - left. by right.
Qed.

Lemma keyBefore_trans (s1 s2 s3 : Z) (q1 q2 q3 : Q) :
  keyBefore (s1, Fin q1) (s2, Fin q2) →
  keyBefore (s2, Fin q2) (s3, Fin q3) →
  keyBefore (s1, Fin q1) (s3, Fin q3).
Proof.
  unfold keyBefore. cbn [fst snd]. rewrite !ge_Fin.
  intros [? | [-> ?]] [? | [-> ?]]; try (left; lia).
  right. split; [done | lra].
Qed.

(** The output is the sorted accumulator. *)
Lemma buildAndFilterResults_accumulated searchItems videoItems channelItems
    videoType channelAvgMap filters maxResults :
  buildAndFilterResults searchItems videoItems channelItems videoType
    channelAvgMap filters maxResults
  = sort byScoreThenRatio
      (accumulated searchItems videoItems channelItems videoType channelAvgMap
         filters maxResults).
Proof. reflexivity. Qed.

(** With statistics that read as numbers, every ratio is a number of
    hundredths. *)
Lemma accumulated_hundredths searchItems videoItems channelItems videoType
    channelAvgMap filters maxResults :
  Forall (λ v, isNumber (video_viewCount v)) videoItems →
  Forall (λ c, isNumber (channel_subscriberCount c)) channelItems →
  Forall (λ r, ∃ n : Z, viewToSubscriberRatio r = Fin (n # 100))
    (accumulated searchItems videoItems channelItems videoType channelAvgMap
       filters maxResults).
Proof.
  intros Hviews Hsubs. apply Forall_forall. intros r Hr.
  apply collect_elem in Hr as [Hr | (searchItem & _ & Hr)];
    [by apply elem_of_nil in Hr|].
  apply joinAndScore_Some in Hr
    as (vd & cd & Hvd & Hcd & _ & _ & _ & _ & Hv & Hs & Hzero & _ & _ & _
        & Hratio & _).
  apply newMap_lookup in Hvd as [Hvd _]. apply newMap_lookup in Hcd as [Hcd _].
  rewrite Forall_forall in Hviews. rewrite Forall_forall in Hsubs.
  specialize (Hviews vd Hvd). specialize (Hsubs cd Hcd).
  unfold isNumber in *. rewrite Hratio, Hv, Hs in *.
  destruct (parseInt (default "0" (video_viewCount vd))) as [|v]; [done|].
  destruct (parseInt (default "0" (channel_subscriberCount cd))) as [|c]; [done|].
  unfold div, strictEq, ofZ in *. change (inject_Z 0) with 0%Q in Hzero.
  rewrite Hzero. eexists. reflexivity.
Qed.

(** The output is strongly sorted by rank. *)
Lemma buildAndFilterResults_sorted searchItems videoItems channelItems
    videoType channelAvgMap filters maxResults :
  Forall (λ v, isNumber (video_viewCount v)) videoItems →
  Forall (λ c, isNumber (channel_subscriberCount c)) channelItems →
  StronglySorted rankedBefore
    (buildAndFilterResults searchItems videoItems channelItems videoType
       channelAvgMap filters maxResults).
Proof.
  intros Hviews Hsubs.
  pose proof (accumulated_hundredths searchItems _ _ videoType channelAvgMap
                filters maxResults Hviews Hsubs) as Hfin.
  rewrite buildAndFilterResults_accumulated.
  set (acc := accumulated _ _ _ _ _ _ _) in *.
  set (P := λ r, ∃ n : Z, viewToSubscriberRatio r = Fin (n # 100)) in *.
  assert (∀ a b, P a → P b →
            (notAfter byScoreThenRatio a b ↔ rankedBefore a b)) as Hspec.
  { intros a b [na Ha] [nb Hb]. by eapply byScoreThenRatio_finite. }
  assert (StronglySorted (notAfter byScoreThenRatio)
            (sort byScoreThenRatio acc)) as Hsorted.
  { apply (sort_StronglySorted byScoreThenRatio P); [| |done].
    - intros a b Pa Pb. rewrite !Hspec by done.
      destruct Pa as [na Ha], Pb as [nb Hb].
      unfold rankedBefore, sortKey. rewrite Ha, Hb. apply keyBefore_total.
    - intros a b c Pa Pb Pc. rewrite !Hspec by done.
      destruct Pa as [na Ha], Pb as [nb Hb], Pc as [nc Hc].
      unfold rankedBefore, sortKey. rewrite Ha, Hb, Hc. apply keyBefore_trans. }
  assert (Forall P (sort byScoreThenRatio acc)) as HP
    by (by rewrite sort_Permutation).
  clear Hfin. induction Hsorted as [|a l Hl IH Ha]; [constructor|].
  apply Forall_cons in HP as [Pa Pl]. constructor; [by apply IH|].
  rewrite Forall_forall in Ha, Pl |- *. intros b Hb.
  apply Hspec; auto.
Qed.

(** C4 (amended).  When every view count string and every subscriber count
    string of the input reads as a number, the output is sorted: of two
    emitted records, the earlier one has the higher performance score, or
    the same score and a ratio at least as high. *)
Theorem output_is_ranked searchItems videoItems channelItems videoType
    channelAvgMap filters maxResults
    (before between after : list VideoResult) (a b : VideoResult) :
  Forall (λ v, isNumber (video_viewCount v)) videoItems →
  Forall (λ c, isNumber (channel_subscriberCount c)) channelItems →
  buildAndFilterResults searchItems videoItems channelItems videoType
    channelAvgMap filters maxResults
  = (before ++ a :: between ++ b :: after)%list →
  score (performanceScore a) > score (performanceScore b)
  ∨ (score (performanceScore a) = score (performanceScore b)
     ∧ ge (viewToSubscriberRatio a) (viewToSubscriberRatio b) = true).
Proof.
  intros Hviews Hsubs Hout.
  pose proof (buildAndFilterResults_sorted searchItems _ _ videoType
                channelAvgMap filters maxResults Hviews Hsubs) as Hsorted.
  rewrite Hout in Hsorted.
  apply StronglySorted_app_1_r, StronglySorted_inv in Hsorted as [_ Hab].
  rewrite Forall_forall in Hab.
  destruct (Hab b) as [Hlt | Heq].
  - apply elem_of_app. right. by left.
  - left. cbn in Hlt. lia.
  - right. done.
Qed.

Lemma sample2_numeric :
  Forall (λ v, isNumber (video_viewCount v)) Sample.videoItems2
  ∧ Forall (λ c, isNumber (channel_subscriberCount c)) Sample.channelItems2.
Proof. split; repeat constructor; discriminate. Defined.

Lemma output_is_ranked_witness :
  score (performanceScore Sample.record_c)
  > score (performanceScore Sample.record_a)
  ∨ (score (performanceScore Sample.record_c)
     = score (performanceScore Sample.record_a)
     ∧ ge (viewToSubscriberRatio Sample.record_c)
         (viewToSubscriberRatio Sample.record_a) = true).
Proof.
  apply (output_is_ranked Sample.searchItems_abc Sample.videoItems2
           Sample.channelItems2 longform ∅ default_filters default_maxResults
           [] [] [Sample.record_b] Sample.record_c Sample.record_a).
  - apply sample2_numeric.
  - apply sample2_numeric.
  - vm_compute. reflexivity.
Defined.

(** C4, as stated, fails: with a subscriber count string that [parseInt]
    does not read, both records get the ratio NaN and the score 1, and
    neither ranks before the other. *)
Lemma unreadable_counts_are_unordered :
  ∃ a b,
    buildAndFilterResults Sample.searchItems_ab Sample.videoItems3
      Sample.channelItems3 longform ∅ default_filters default_maxResults
    = [a; b]
    ∧ viewToSubscriberRatio a = NaN
    ∧ viewToSubscriberRatio b = NaN
    ∧ score (performanceScore a) = 1
    ∧ score (performanceScore b) = 1
    ∧ ¬ (score (performanceScore a) > score (performanceScore b)
         ∨ (score (performanceScore a) = score (performanceScore b)
            ∧ ge (viewToSubscriberRatio a) (viewToSubscriberRatio b) = true)).
Proof.
  eexists _, _. split; [vm_compute; reflexivity|].
  repeat split. cbn. intros [? | [_ ?]]; [lia | done].
Qed.

(** ** Records with equal keys *)






(** ** The model on hand-traced inputs *)

Example parseInt_samples :
  parseInt "42" = ofZ 42
  ∧ parseInt "  -7" = ofZ (-7)
  ∧ parseInt "12px" = ofZ 12
  ∧ parseInt "0x1F" = ofZ 31
  ∧ parseInt "hidden" = NaN
  ∧ parseInt "" = NaN.
Proof. repeat split. Qed.

(** The example of the doc comment of [parseDurationToSeconds], and strings
    the expression does not match in full. *)
Example parseDurationToSeconds_samples :
  parseDurationToSeconds "PT1M30S" = ofZ 90
  ∧ parseDurationToSeconds "PT1H2M3S" = ofZ 3723
  ∧ parseDurationToSeconds "PT15S" = ofZ 15
  ∧ parseDurationToSeconds "P1D" = ofZ 0
  ∧ parseDurationToSeconds "" = ofZ 0.
Proof. repeat split. Qed.

Example getVideoTypeSearchParams_samples :
  videoDurations (getVideoTypeSearchParams shorts) = [short]
  ∧ videoDurations (getVideoTypeSearchParams longform) = [medium; long].
Proof. split; reflexivity. Qed.

(** Two long samples with 10 and 11 views and a short one with 1000: the
    long average is 10.5 rounded up, the short average is 1000. *)
Example calcChannelAvgViews_samples :
  let samples :=
    [Sample.video "s1" "PT10M" (Some "10");
     Sample.video "s2" "PT1H" (Some "11");
     Sample.video "s3" "PT30S" (Some "1000")] in
  calcChannelAvgViews samples longform = ofZ 11
  ∧ calcChannelAvgViews samples shorts = ofZ 1000
  ∧ calcChannelAvgViews [] longform = ofZ 0.
Proof. repeat split. Qed.

(** 150,000 views on 200,000 subscribers: the record is dropped. *)
Example fewer_views_than_subscribers_is_dropped :
  buildAndFilterResults [Sample.searchItem "v1" "c1"]
    [Sample.video "v1" "PT10M" (Some "150000")]
    [Sample.channel "c1" (Some "200000")]
    longform ∅ default_filters default_maxResults = [].
Proof. vm_compute. reflexivity. Qed.

(** A channel without an average keeps its record, without a
    contribution score. *)
Example missing_average_keeps_the_record :
  ∃ r,
    buildAndFilterResults Sample.searchItems1 Sample.videoItems1
      Sample.channelItems1 longform ∅ default_filters default_maxResults = [r]
    ∧ contributionScore r = None
    ∧ channelAvgViews r = None.
Proof. eexists. split; [vm_compute; reflexivity|]. split; reflexivity. Qed.

Example sort_samples :
  sort (λ a b, sub (ofZ b) (ofZ a)) [3; 1; 2; 5; 4] = [5; 4; 3; 2; 1]
  ∧ sort (λ a b : Z * string, sub (ofZ b.1) (ofZ a.1))
      [(1, "x"); (2, "y"); (1, "z"); (2, "w")]
    = [(2, "y"); (2, "w"); (1, "x"); (1, "z")].
Proof. split; reflexivity. Qed.

Example route_helpers_samples :
  chunks ["a"; "b"; "c"; "d"; "e"] 2 = [["a"; "b"]; ["c"; "d"]; ["e"]]
  ∧ chunks [] 50 = []
  ∧ unique ["c1"; "c2"; "c1"; "c3"; "c2"] = ["c1"; "c2"; "c3"]
  ∧ mapValues [("a", 1); ("b", 2); ("a", 3)] = [3; 2]
  ∧ trim "  cats " = "cats"
  ∧ trim "   " = "".
Proof. repeat split. Qed.

(** The request [searchVideos] sends for a second page, and the page it
    returns when the answer has no [items]. *)
Example searchVideos_request :
  searchVideos
    (λ endpoint query,
       if bool_decide
            (endpoint = "search"
             ∧ query = [("part", "snippet"); ("q", "cats"); ("type", "video");
                        ("regionCode", "KR"); ("relevanceLanguage", "ko");
                        ("videoDuration", "medium"); ("maxResults", "50");
                        ("videoEmbeddable", "true");
                        ("publishedAfter", "2025-01-01T00:00:00.000Z");
                        ("pageToken", "CAUQAA"); ("key", "KEY")])
       then Sample.ok200 {| data_searchItems := None;
                            data_nextPageToken := None |}
       else None)
    {| sp_apiKey := "KEY";
       sp_keyword := "cats";
       sp_videoDuration := medium;
       sp_maxResults := Some 50;
       sp_publishedAfter := Some "2025-01-01T00:00:00.000Z";
       sp_pageToken := Some "CAUQAA" |}
  = inr {| items := []; nextPageToken := None |}.
Proof. reflexivity. Qed.

(** No response from the platform: the handler answers 503. *)
Example POST_network_error :
  POST {| fetchSearch := λ _ _, None;
          fetchVideos := λ _ _, None;
          fetchChannels := λ _ _, None;
          fetchPlaylistItems := λ _ _, None |}
    Sample.clock (Some Sample.request31)
  = ErrorResponse "YouTube API 네트워크 오류가 발생했습니다."
      (Some NETWORK_ERROR) 503.
Proof. reflexivity. Qed.

Example POST_validation :
  POST Sample.platform31 Sample.clock None
  = ErrorResponse "요청 형식이 올바르지 않습니다." None 400
  ∧ POST Sample.platform31 Sample.clock
      (Some {| body_apiKey := Some "  ";
               body_keyword := Some "cats";
               body_videoType := Some "shorts";
               body_uploadPeriod := None;
               body_minViewCount := None;
               body_maxSubscriberCount := None |})
    = ErrorResponse "API Key를 입력해 주세요." None 400
  ∧ POST Sample.platform31 Sample.clock
      (Some {| body_apiKey := Some "KEY";
               body_keyword := Some "cats";
               body_videoType := Some "live";
               body_uploadPeriod := None;
               body_minViewCount := None;
               body_maxSubscriberCount := None |})
    = ErrorResponse "videoType은 'shorts' 또는 'longform'이어야 합니다."
        None 400.
Proof. repeat split. Qed.

(* ===================================================================== *)
(** * Further properties *)
(* ===================================================================== *)

Import Notions.

(** ** Further properties: the two scores *)

Lemma calcPerformanceScore_tier (x : number) :
  ∃ s, 1 ≤ s ≤ 5 ∧ calcPerformanceScore x = tier s.
Proof.
  unfold calcPerformanceScore. repeat case_match;
    [exists 5 | exists 4 | exists 3 | exists 2 | exists 1]; (split; [lia | reflexivity]).
Qed.

Lemma calcContributionScore_tier (views avg : number) (info : ScoreInfo) :
  calcContributionScore views avg = Some info →
  ∃ s, 1 ≤ s ≤ 5 ∧ info = tier s.
Proof.
  unfold calcContributionScore. repeat case_match; intros [= <-];
    [exists 5 | exists 4 | exists 3 | exists 2 | exists 1]; (split; [lia | reflexivity]).
Qed.

(** X1.  Both scoring functions only ever answer with one of the five
    tiers: a score from 1 to 5 with the label and the colour of that score
    (5 Excellent, 4 Great, 3 Good, 2 Normal, 1 Bad), for every argument,
    NaN included; a NaN ratio is rated 1. *)
Theorem scores_are_tiers :
  (∀ ratio, ∃ s, 1 ≤ s ≤ 5 ∧ calcPerformanceScore ratio = tier s)
  ∧ (∀ views avg info,
       calcContributionScore views avg = Some info →
       ∃ s, 1 ≤ s ≤ 5 ∧ info = tier s)
  ∧ calcPerformanceScore NaN = tier 1
  ∧ (∀ avg, calcContributionScore NaN avg = None
            ∨ calcContributionScore NaN avg = Some (tier 1)).
Proof.
  split; [apply calcPerformanceScore_tier|].
  split; [apply calcContributionScore_tier|].
  split; [reflexivity|].
  intros avg. unfold calcContributionScore.
  destruct (le avg (ofZ 0)); [by left|]. right. by destruct avg.
Qed.

(** X2.  The performance score is monotone: a larger ratio never gets a
    lower score. *)
Theorem calcPerformanceScore_monotone (r1 r2 : Q) :
  (r1 <= r2)%Q →
  score (calcPerformanceScore (Fin r1)) ≤ score (calcPerformanceScore (Fin r2)).
Proof.
  intros Hle. unfold calcPerformanceScore, half, ofZ, inject_Z.
  repeat match goal with
    | |- context [ge (Fin ?x) (Fin ?y)] =>
        let H := fresh "H" in
        destruct (ge (Fin x) (Fin y)) eqn:H;
        [apply ge_Fin in H | apply ge_Fin_false in H]
    end; cbn [score]; try lia; exfalso; lra.
Qed.

Lemma calcPerformanceScore_monotone_witness :
  score (calcPerformanceScore (Fin (3 # 4)))
  ≤ score (calcPerformanceScore (Fin (7 # 2))).
Proof. apply calcPerformanceScore_monotone. discriminate. Defined.

(** X3.  For a positive channel average the contribution score is monotone
    in the view count. *)
Theorem calcContributionScore_monotone (v1 v2 a : Q) (i1 i2 : ScoreInfo) :
  (0 < a)%Q → (v1 <= v2)%Q →
  calcContributionScore (Fin v1) (Fin a) = Some i1 →
  calcContributionScore (Fin v2) (Fin a) = Some i2 →
  score i1 ≤ score i2.
Proof.
  intros Ha Hle.
  assert (v1 / a <= v2 / a)%Q as Hq.
  { unfold Qdiv. apply Qmult_le_compat_r; [done|].
    apply Qlt_le_weak, Qinv_lt_0_compat, Ha. }
  rewrite !calcContributionScore_positive by done. cbv zeta.
  generalize dependent (v1 / a)%Q. intros q1.
  generalize dependent (v2 / a)%Q. intros q2 Hq.
  repeat match goal with
    | |- context [ge (Fin ?x) (Fin ?y)] =>
        let H := fresh "H" in
        destruct (ge (Fin x) (Fin y)) eqn:H;
        [apply ge_Fin in H | apply ge_Fin_false in H]
    end; intros [= <-] [= <-]; cbn [score]; try lia; exfalso; lra.
Qed.

Lemma calcContributionScore_monotone_witness :
  ∃ i1 i2,
    calcContributionScore (Fin 300) (Fin 100) = Some i1
    ∧ calcContributionScore (Fin 1200) (Fin 100) = Some i2
    ∧ score i1 ≤ score i2.
Proof.
  eexists _, _. split; [reflexivity|]. split; [reflexivity|].
  apply (calcContributionScore_monotone 300 1200 100); [done|discriminate|reflexivity|reflexivity].
Defined.

(** ** Further properties: the loop and its budget *)

Lemma collect_take videoMap channelMap videoType channelAvgMap filters
    (budget : Z) (searchItems : list YouTubeSearchItem)
    (results : list VideoResult) :
  collect videoMap channelMap videoType channelAvgMap filters (ofZ budget)
    searchItems results
  = (results
     ++ take (Z.to_nat budget - length results)
          (omap (joinAndScore videoMap channelMap videoType channelAvgMap
                   filters) searchItems))%list.
Proof.
  revert results. induction searchItems as [|s searchItems IH];
    intros results; cbn [collect].
  - change (omap _ []) with (@nil VideoResult).
    by rewrite take_nil, app_nil_r.
  - change (omap ?f (s :: searchItems))
      with (match f s with
            | Some r => r :: omap f searchItems
            | None => omap f searchItems
            end).
    destruct (ge _ _) eqn:Hge.
    + apply ge_Fin in Hge. rewrite <- Zle_Qle in Hge.
      replace (Z.to_nat budget - length results)%nat with 0%nat by lia.
      by rewrite take_0, app_nil_r.
    + apply ge_Fin_false in Hge. rewrite <- Zlt_Qlt in Hge.
      destruct (joinAndScore _ _ _ _ _ s) as [r|]; [|apply IH].
      rewrite IH, <- app_assoc, length_app. cbn [length app].
      replace (Z.to_nat budget - length results)%nat
        with (S (Z.to_nat budget - (length results + 1)))%nat by lia.
      reflexivity.
Qed.

(** X4.  The budget cuts the loop, not the ranking: the output is the
    sorted list of the first [budget] search items that qualify, in search
    order, and has [min budget (number of qualifying items)] records.  A
    qualifying item beyond the budget is left out, however high it would
    rank. *)
Theorem budget_keeps_the_first_qualifiers searchItems videoItems channelItems
    videoType channelAvgMap filters (budget : Z) :
  buildAndFilterResults searchItems videoItems channelItems videoType
    channelAvgMap filters (ofZ budget)
  = sort byScoreThenRatio
      (take (Z.to_nat budget)
         (qualifying searchItems videoItems channelItems videoType
            channelAvgMap filters))
  ∧ length (buildAndFilterResults searchItems videoItems channelItems
              videoType channelAvgMap filters (ofZ budget))
    = (Z.to_nat budget
       `min` length (qualifying searchItems videoItems channelItems videoType
                       channelAvgMap filters))%nat.
Proof.
  assert (buildAndFilterResults searchItems videoItems channelItems videoType
            channelAvgMap filters (ofZ budget)
          = sort byScoreThenRatio
              (take (Z.to_nat budget)
                 (qualifying searchItems videoItems channelItems videoType
                    channelAvgMap filters))) as Heq.
  { unfold buildAndFilterResults, qualifying. cbv zeta.
    rewrite collect_take. cbn [length app]. by rewrite Nat.sub_0_r. }
  split; [done|].
  rewrite Heq, sort_Permutation. apply length_take.
Qed.

(** ** Further properties: what an emitted record satisfies *)

(** X5.  Every emitted record passed the filters it was built under: its
    duration matches the requested category, its subscriber count is not
    above the cap and its view count is not below the floor (when they are
    set and the counts are numbers), its performance score is the score of
    its own ratio, and it has a like ratio exactly when it has a like
    count. *)
Theorem emitted_records_pass_the_filters searchItems videoItems channelItems
    videoType channelAvgMap filters maxResults (r : VideoResult) :
  r ∈ buildAndFilterResults searchItems videoItems channelItems videoType
        channelAvgMap filters maxResults →
  matchesVideoType (duration r) videoType = true
  ∧ (∀ s cap, subscriberCount r = Fin s →
              maxSubscriberCount filters = Some (Fin cap) → (s <= cap)%Q)
  ∧ (∀ v floor, viewCount r = Fin v →
                minViewCount filters = Some (Fin floor) → (floor <= v)%Q)
  ∧ performanceScore r = calcPerformanceScore (viewToSubscriberRatio r)
  ∧ (is_Some (likeToSubscriberRatio r) ↔ is_Some (likeCount r)).
Proof.
  intros Hr. apply buildAndFilterResults_elem in Hr as (searchItem & _ & Hr).
  assert (is_Some (likeToSubscriberRatio r) ↔ is_Some (likeCount r)) as Hlike.
  { revert Hr. unfold joinAndScore. repeat case_match; try done;
      intros [= <-]; cbn; split; intros [? [=]]; eauto. }
  apply joinAndScore_Some in Hr
    as (vd & cd & _ & _ & Hmatch & _ & _ & Hd & _ & _ & _ & _ & Hcap & Hfloor
        & _ & Hperf & _).
  rewrite Hd. split; [done|]. split; [|split; [|done]].
  - intros s cap Hs Hc. specialize (Hcap _ Hc). rewrite Hs in Hcap.
    by apply gt_Fin_false in Hcap.
  - intros v floor Hv Hf. specialize (Hfloor _ Hf). rewrite Hv in Hfloor.
    apply not_true_iff_false in Hfloor. rewrite lt_Fin in Hfloor.
    by apply Qnot_lt_le.
Qed.

Lemma emitted_records_pass_the_filters_witness :
  Sample.record1
  ∈ buildAndFilterResults Sample.searchItems1 Sample.videoItems1
      Sample.channelItems1 longform Sample.averages1 default_filters
      default_maxResults
  ∧ matchesVideoType (duration Sample.record1) longform = true.
Proof.
  assert (Sample.record1
          ∈ buildAndFilterResults Sample.searchItems1 Sample.videoItems1
              Sample.channelItems1 longform Sample.averages1 default_filters
              default_maxResults) as Hin by apply sample1_emitted.
  split; [exact Hin|].
  exact (proj1 (emitted_records_pass_the_filters _ _ _ _ _ _ _ _ Hin)).
Defined.




(** ** Further properties: the order of the output *)

Section SortBy.
Context {A : Type} (comparefn : A → A → number) (R : A → A → Prop).
Hypothesis R_trans : ∀ a b c, R a b → R b c → R a c.
Hypothesis R_moved : ∀ x y, gt (comparefn x y) (ofZ 0) = true → R y x.
Hypothesis R_stays : ∀ x y, gt (comparefn x y) (ofZ 0) = false → R x y.

Lemma insert_sorted_by (x : A) (l : list A) :
  StronglySorted R l → StronglySorted R (JS.insert comparefn x l).
Proof.
  intros Hl. induction Hl as [|y l Hl IH Hy]; cbn [JS.insert].
  - repeat constructor.
  - destruct (gt (comparefn x y) (ofZ 0)) eqn:Hxy.
    + constructor; [done|].
      rewrite insert_Permutation. constructor; [by apply R_moved | done].
    + constructor; [by constructor|].
      constructor; [by apply R_stays|].
      rewrite Forall_forall in Hy |- *. intros z Hz.
      apply (R_trans x y z); auto.
Qed.

Lemma sort_sorted_by (l : list A) : StronglySorted R (sort comparefn l).
Proof.
  induction l as [|x l IH]; [constructor|].
  change (sort comparefn (x :: l))
    with (JS.insert comparefn x (sort comparefn l)).
  by apply insert_sorted_by.
Qed.
End SortBy.

(** Sorting a list that is in order already changes nothing. *)
Lemma sort_in_order {A} (comparefn : A → A → number) (l : list A) :
  StronglySorted (notAfter comparefn) l → sort comparefn l = l.
Proof.
  induction 1 as [|x l Hl IH Hx]; [done|].
  change (sort comparefn (x :: l))
    with (JS.insert comparefn x (sort comparefn l)).
  rewrite IH. destruct l as [|y l]; [done|].
  apply Forall_cons in Hx as [Hxy _]. cbn [JS.insert].
  unfold notAfter in Hxy. by rewrite Hxy.
Qed.

(** The comparator of the output decides by the score alone whenever the
    scores differ, whatever the ratios are. *)
Lemma byScoreThenRatio_score (a b : VideoResult) :
  (gt (byScoreThenRatio a b) (ofZ 0) = true →
   score (performanceScore a) ≤ score (performanceScore b))
  ∧ (gt (byScoreThenRatio a b) (ofZ 0) = false →
     score (performanceScore b) ≤ score (performanceScore a)).
Proof.
  unfold byScoreThenRatio, JS.or, truthy, sub, ofZ.
  set (sa := score (performanceScore a)). set (sb := score (performanceScore b)).
  destruct (Qeq_bool (inject_Z sb - inject_Z sa) 0) eqn:Hs; cbn [negb].
  - apply Qeq_bool_iff in Hs.
    assert (sb = sa) as Heq by (apply inject_Z_injective; lra).
    split; intros _; lia.
  - rewrite gt_Fin, gt_Fin_false. split; intros Hq.
    + assert (inject_Z sa <= inject_Z sb)%Q as Hle
        by (unfold inject_Z in *; lra).
      by rewrite <- Zle_Qle in Hle.
    + assert (inject_Z sb <= inject_Z sa)%Q as Hle
        by (unfold inject_Z in *; lra).
      by rewrite <- Zle_Qle in Hle.
Qed.

Lemma sort_byScoreThenRatio_scores (l : list VideoResult) :
  StronglySorted
    (λ a b, score (performanceScore b) ≤ score (performanceScore a))
    (sort byScoreThenRatio l).
Proof.
  apply sort_sorted_by.
  - intros a b c ? ?. lia.
  - intros x y. apply byScoreThenRatio_score.
  - intros x y. apply byScoreThenRatio_score.
Qed.

(** X7.  Whatever the statistics are, readable or not, the performance
    scores never increase down the output: every record has a score at
    least as high as every record after it. *)
Theorem output_scores_never_increase searchItems videoItems channelItems
    videoType channelAvgMap filters maxResults :
  StronglySorted
    (λ a b, score (performanceScore b) ≤ score (performanceScore a))
    (buildAndFilterResults searchItems videoItems channelItems videoType
       channelAvgMap filters maxResults).
Proof.
  unfold buildAndFilterResults. cbv zeta. apply sort_byScoreThenRatio_scores.
Qed.

(** ** Further properties: the table *)

Lemma Table_compare_score (getTime : string → number) (dir : Table.SortDir)
    (a b : VideoResult) :
  let st := {| Table.sortKey := Table.key_performanceScore;
               Table.sortDir := dir |} in
  let before x y :=
    match dir with
    | Table.desc => score (performanceScore y) ≤ score (performanceScore x)
    | Table.asc => score (performanceScore x) ≤ score (performanceScore y)
    end in
  notAfter (Table.compare getTime st) a b ↔ before a b.
Proof.
  cbv zeta. unfold notAfter, Table.compare, Table.getSortValue, sub, ofZ.
  cbn [Table.sortKey Table.sortDir].
  destruct dir; rewrite gt_Fin_false.
  - split; intros H.
    + assert (inject_Z (score (performanceScore a))
              <= inject_Z (score (performanceScore b)))%Q as Hle
        by (unfold inject_Z in *; lra).
      by rewrite <- Zle_Qle in Hle.
    + rewrite Zle_Qle in H. unfold inject_Z in *. lra.
  - split; intros H.
    + assert (inject_Z (score (performanceScore b))
              <= inject_Z (score (performanceScore a)))%Q as Hle
        by (unfold inject_Z in *; lra).
      by rewrite <- Zle_Qle in Hle.
    + rewrite Zle_Qle in H. unfold inject_Z in *. lra.
Qed.

(** X8.  The table opens on the server's order: in its initial state
    (performance score, descending) the sorted rows are the response of
    [buildAndFilterResults] unchanged, ratio tie-break included, although
    the comparator of the table looks at the score only. *)
Theorem table_opens_on_server_order (getTime : string → number)
    searchItems videoItems channelItems videoType channelAvgMap filters
    maxResults :
  Table.sorted getTime Table.initial
    (buildAndFilterResults searchItems videoItems channelItems videoType
       channelAvgMap filters maxResults)
  = buildAndFilterResults searchItems videoItems channelItems videoType
      channelAvgMap filters maxResults.
Proof.
  unfold Table.sorted. apply sort_in_order.
  unfold buildAndFilterResults. cbv zeta.
  pose proof (sort_byScoreThenRatio_scores
                (collect (newMap (map (λ v, (video_id v, v)) videoItems))
                   (newMap (map (λ c, (channel_id c, c)) channelItems))
                   videoType channelAvgMap filters maxResults searchItems []))
    as Hsorted.
  induction Hsorted as [|a l Hl IH Ha]; constructor; [done|].
  rewrite Forall_forall in Ha |- *. intros b Hb.
  apply (Table_compare_score getTime Table.desc a b). by apply Ha.
Qed.

(** X9.  Sorting the table by the contribution column rearranges the rows
    and puts them in the order of the chosen direction, a record without a
    contribution score counting as -1: in descending order such records
    come after every record that has a score above -1. *)
Theorem table_contribution_column (getTime : string → number)
    (dir : Table.SortDir) (videos : list VideoResult) :
  let rows :=
    Table.sorted getTime
      {| Table.sortKey := Table.key_contributionScore; Table.sortDir := dir |}
      videos in
  rows ≡ₚ videos
  ∧ StronglySorted
      (λ a b, match dir with
              | Table.desc => contributionRank b ≤ contributionRank a
              | Table.asc => contributionRank a ≤ contributionRank b
              end) rows.
Proof.
  cbv zeta. unfold Table.sorted. split; [apply sort_Permutation|].
  assert (∀ x, Table.getSortValue getTime x Table.key_contributionScore
               = ofZ (contributionRank x)) as Hval.
  { intros x. unfold Table.getSortValue, contributionRank.
    by destruct (contributionScore x). }
  apply sort_sorted_by.
  - intros a b c. destruct dir; lia.
  - intros x y. unfold Table.compare. cbn [Table.sortKey Table.sortDir].
    rewrite !Hval. unfold sub, ofZ. destruct dir; rewrite gt_Fin; intros H.
    + assert (inject_Z (contributionRank y) <= inject_Z (contributionRank x))%Q
        as Hle by (unfold inject_Z in *; lra).
      by rewrite <- Zle_Qle in Hle.
    + assert (inject_Z (contributionRank x) <= inject_Z (contributionRank y))%Q
        as Hle by (unfold inject_Z in *; lra).
      by rewrite <- Zle_Qle in Hle.
  - intros x y. unfold Table.compare. cbn [Table.sortKey Table.sortDir].
    rewrite !Hval. unfold sub, ofZ. destruct dir; rewrite gt_Fin_false; intros H.
    + assert (inject_Z (contributionRank x) <= inject_Z (contributionRank y))%Q
        as Hle by (unfold inject_Z in *; lra).
      by rewrite <- Zle_Qle in Hle.
    + assert (inject_Z (contributionRank y) <= inject_Z (contributionRank x))%Q
        as Hle by (unfold inject_Z in *; lra).
      by rewrite <- Zle_Qle in Hle.
Qed.

(** X10.  A click on a column header makes that column the sort column; a
    click on another column than the current one always starts in
    descending order; and two more clicks on the same header bring the
    state back. *)
Theorem handleSort_clicks (st : Table.State) (key : Table.SortKey) :
  Table.sortKey (Table.handleSort st key) = key
  ∧ (Table.sortKey st ≠ key →
     Table.sortDir (Table.handleSort st key) = Table.desc)
  ∧ Table.handleSort (Table.handleSort (Table.handleSort st key) key) key
    = Table.handleSort st key.
Proof.
  destruct st as [k d]. destruct k, key, d; cbn; (split; [done|]);
    (split; [done|]); done.
Qed.

(** ** Further properties: identifiers *)

(** [mapSet] replaces in place or appends: the keys stay distinct, every
    entry is one that was set. *)
Lemma mapSet_keys {V} (k : string) (v : V) (entries : list (string * V)) :
  map fst (mapSet k v entries)
  = if decide (k ∈ map fst entries) then map fst entries
    else (map fst entries ++ [k])%list.
Proof.
  induction entries as [|[k' v'] entries IH]; [done|].
  cbn [mapSet]. destruct (String.eqb k k') eqn:Hk.
  - apply String.eqb_eq in Hk as ->. cbn [map fst].
    rewrite decide_True by left. done.
  - apply String.eqb_neq in Hk. cbn [map fst]. rewrite IH.
    destruct (decide (k ∈ map fst entries)) as [Hin | Hin].
    + rewrite decide_True by (by right). done.
    + rewrite decide_False; [done|].
      intros Hin'. apply elem_of_cons in Hin' as [? | ?]; done.
Qed.

Lemma mapSet_elem {V} (k : string) (v : V) (entries : list (string * V))
    (e : string * V) :
  e ∈ mapSet k v entries → e = (k, v) ∨ e ∈ entries.
Proof.
  induction entries as [|[k' v'] entries IH]; cbn [mapSet].
  - intros He. apply list_elem_of_singleton in He. by left.
  - destruct (String.eqb k k').
    + intros He. apply elem_of_cons in He as [-> | He]; [by left|].
      right. by right.
    + intros He. apply elem_of_cons in He as [-> | He]; [right; by left|].
      apply IH in He as [-> | He]; [by left|]. right. by right.
Qed.

Lemma mapValues_keys {V} (key : V → string) (l : list V) :
  let values := mapValues (map (λ x, (key x, x)) l) in
  NoDup (map key values) ∧ ∀ v, v ∈ values → v ∈ l.
Proof.
  cbv zeta. unfold mapValues.
  assert (∀ (l' : list V) (m0 : list (string * V)),
            NoDup (map fst m0) →
            (∀ e, e ∈ m0 → e.1 = key e.2 ∧ e.2 ∈ l) →
            (∀ x, x ∈ l' → x ∈ l) →
            let m := foldl (λ m e, mapSet e.1 e.2 m) m0
                       (map (λ x, (key x, x)) l') in
            NoDup (map fst m) ∧ ∀ e, e ∈ m → e.1 = key e.2 ∧ e.2 ∈ l) as Hgen.
  { induction l' as [|x l' IH]; intros m0 Hnd Hm0 Hl'; [done|].
    cbn [map foldl]. apply IH.
    - cbn [fst snd]. rewrite mapSet_keys. case_decide; [done|].
      apply NoDup_app. split; [done|]. split.
      + intros k Hk Hk'. apply list_elem_of_singleton in Hk'. by subst.
      + apply NoDup_singleton.
    - intros e He. apply mapSet_elem in He as [-> | He]; [|by apply Hm0].
      cbn [fst snd]. split; [done|]. apply Hl'. by left.
    - intros y Hy. apply Hl'. by right. }
  destruct (Hgen l []) as [Hnd Hm];
    [constructor | by intros e He; apply elem_of_nil in He | done |].
  set (m := foldl _ _ _) in *. split.
  - replace (map key (map snd m)) with (map fst m); [done|].
    rewrite <- list_fmap_compose. apply Forall_fmap_ext_1.
    apply Forall_forall. intros e He. by apply Hm.
  - intros v Hv. apply list_elem_of_fmap in Hv as (e & -> & He). by apply Hm.
Qed.

(** The accumulator is a prefix of the qualifying records. *)
Lemma collect_prefix_of videoMap channelMap videoType channelAvgMap filters
    maxResults (searchItems : list YouTubeSearchItem)
    (results : list VideoResult) :
  ∃ n,
    collect videoMap channelMap videoType channelAvgMap filters maxResults
      searchItems results
    = (results
       ++ take n (omap (joinAndScore videoMap channelMap videoType
                          channelAvgMap filters) searchItems))%list.
Proof.
  revert results. induction searchItems as [|s searchItems IH];
    intros results; cbn [collect].
  - exists 0%nat. by rewrite app_nil_r.
  - change (omap ?f (s :: searchItems))
      with (match f s with
            | Some r => r :: omap f searchItems
            | None => omap f searchItems
            end).
    destruct (ge _ _); [exists 0%nat; by rewrite take_0, app_nil_r|].
    destruct (joinAndScore _ _ _ _ _ s) as [r|]; [|apply IH].
    destruct (IH (results ++ [r])%list) as [n ->].
    exists (S n). by rewrite <- app_assoc.
Qed.

Lemma qualifying_ids videoMap channelMap videoType channelAvgMap filters
    (searchItems : list YouTubeSearchItem) :
  map id (omap (joinAndScore videoMap channelMap videoType channelAvgMap
                  filters) searchItems)
  `sublist_of` map search_videoId searchItems.
Proof.
  induction searchItems as [|s searchItems IH]; [done|].
  change (omap ?f (s :: searchItems))
    with (match f s with
          | Some r => r :: omap f searchItems
          | None => omap f searchItems
          end).
  destruct (joinAndScore _ _ _ _ _ s) as [r|] eqn:Hs.
  - apply joinAndScore_Some in Hs as (_ & _ & _ & _ & _ & Hid & _).
    cbn [map]. rewrite Hid. by apply sublist_skip.
  - cbn [map]. by apply sublist_cons.
Qed.

Lemma buildAndFilterResults_ids searchItems videoItems channelItems videoType
    channelAvgMap filters maxResults :
  NoDup (map search_videoId searchItems) →
  NoDup (map id (buildAndFilterResults searchItems videoItems channelItems
                   videoType channelAvgMap filters maxResults)).
Proof.
  intros Hnd. unfold buildAndFilterResults. cbv zeta.
  rewrite sort_Permutation.
  destruct (collect_prefix_of
              (newMap (map (λ v, (video_id v, v)) videoItems))
              (newMap (map (λ c, (channel_id c, c)) channelItems))
              videoType channelAvgMap filters maxResults searchItems [])
    as [n ->].
  cbn [app]. eapply sublist_NoDup; [exact Hnd|].
  etrans; [|apply qualifying_ids].
  change (map id (take n ?l)) with (id <$> take n l).
  rewrite fmap_take. apply sublist_take.
Qed.

Lemma POST_cases net clock (req : option SearchRequestBody) :
  (∃ error, POST net clock req = ErrorResponse error None 400)
  ∨ (∃ body apiKey keyword videoType,
       req = Some body
       ∧ POST net clock req
         = settle (pipeline net clock apiKey keyword videoType
                     (body_uploadPeriod body) (body_minViewCount body)
                     (body_maxSubscriberCount body))).
Proof.
  unfold POST. destruct req as [body|]; [|left; eauto].
  destruct (given (body_apiKey body)) as [apiKey|]; [|left; eauto].
  destruct (String.eqb (trim apiKey) ""); [left; eauto|].
  destruct (given (body_keyword body)) as [keyword|]; [|left; eauto].
  destruct (String.eqb (trim keyword) ""); [left; eauto|].
  cbv zeta.
  destruct (body_videoType body) as [videoType|]; [|left; eauto].
  destruct (String.eqb videoType "shorts");
    [|destruct (String.eqb videoType "longform"); [|left; eauto]].
  all: right; eexists body, apiKey, keyword, _; split; [done|];
    unfold settle; reflexivity.
Qed.

(** X11.  No response lists a video twice: the ids of the videos of a
    response are pairwise distinct, whatever the platform answered (the
    same video may come back in both duration buckets or on both pages of
    a search). *)
Theorem POST_videos_are_distinct net clock req videos total :
  POST net clock req = VideosResponse videos total →
  NoDup (map id videos).
Proof.
  destruct (POST_cases net clock req)
    as [[error ->] | (body & apiKey & keyword & videoType & _ & ->)]; [done|].
  unfold pipeline, bind.
  destruct (Promise_all _) as [[e|]|searchResultArrays]; try done.
  case_match; [intros [= <- <-]; constructor|].
  destruct (fetchInChunks _ _ _) as [[e|]|videoItems]; try done.
  destruct (fetchInChunks _ _ _) as [[e|]|channelItems]; try done.
  cbn [settle]. intros [= <- <-].
  apply buildAndFilterResults_ids.
  apply (mapValues_keys search_videoId).
Qed.

Lemma POST_videos_are_distinct_witness :
  ∃ videos,
    POST Sample.platform31 Sample.clock (Some Sample.request31)
    = VideosResponse videos 31
    ∧ NoDup (map id videos).
Proof.
  eexists. split; [vm_compute; reflexivity|].
  eapply (POST_videos_are_distinct Sample.platform31 Sample.clock
            (Some Sample.request31)).
  vm_compute. reflexivity.
Defined.

(** ** Further properties: what the channel averages decide *)

Lemma joinAndScore_averages videoMap channelMap videoType
    (averages1 averages2 : gmap string number) filters
    (searchItem : YouTubeSearchItem) :
  withoutContribution
    <$> joinAndScore videoMap channelMap videoType averages1 filters searchItem
  = withoutContribution
    <$> joinAndScore videoMap channelMap videoType averages2 filters searchItem.
Proof.
  unfold joinAndScore.
  destruct (videoMap !! _) as [videoDetail|]; [|done].
  destruct (channelMap !! _) as [channelDetail|]; [|done].
  destruct (negb _); [done|].
  destruct (strictEq _ _); [done|].
  destruct (match maxSubscriberCount filters with
            | Some cap => _ | None => _ end); [done|].
  destruct (lt _ _); [done|].
  destruct (match minViewCount filters with
            | Some floor => _ | None => _ end); [done|].
  reflexivity.
Qed.

Lemma collect_averages videoMap channelMap videoType
    (averages1 averages2 : gmap string number) filters maxResults
    (searchItems : list YouTubeSearchItem) (results1 results2 : list VideoResult) :
  map withoutContribution results1 = map withoutContribution results2 →
  map withoutContribution
    (collect videoMap channelMap videoType averages1 filters maxResults
       searchItems results1)
  = map withoutContribution
      (collect videoMap channelMap videoType averages2 filters maxResults
         searchItems results2).
Proof.
  revert results1 results2.
  induction searchItems as [|s searchItems IH]; intros results1 results2 Heq;
    cbn [collect]; [done|].
  assert (length results1 = length results2) as ->.
  { apply (f_equal length) in Heq. by rewrite !length_map in Heq. }
  destruct (ge _ _); [done|].
  pose proof (joinAndScore_averages videoMap channelMap videoType averages1
                averages2 filters s) as Hs.
  destruct (joinAndScore _ _ _ averages1 _ s) as [r1|],
           (joinAndScore _ _ _ averages2 _ s) as [r2|]; try done.
  - apply IH. rewrite !map_app. cbn [map].
    change (Some (withoutContribution r1) = Some (withoutContribution r2))
      in Hs.
    assert (withoutContribution r1 = withoutContribution r2) as Hr
      by congruence.
    by rewrite Heq, Hr.
  - by apply IH.
Qed.

Section SortMap.
Context {A B : Type} (f : A → B)
        (compareA : A → A → number) (compareB : B → B → number).
Hypothesis compare_f : ∀ x y, compareB (f x) (f y) = compareA x y.

Lemma insert_map (x : A) (l : list A) :
  JS.insert compareB (f x) (map f l) = map f (JS.insert compareA x l).
Proof.
  induction l as [|y l IH]; [done|].
  cbn [map JS.insert]. rewrite compare_f.
  destruct (gt _ _); [|done]. cbn [map]. by rewrite IH.
Qed.

Lemma sort_map (l : list A) :
  sort compareB (map f l) = map f (sort compareA l).
Proof.
  induction l as [|x l IH]; [done|].
  cbn [map].
  change (sort compareB (f x :: map f l))
    with (JS.insert compareB (f x) (sort compareB (map f l))).
  change (sort compareA (x :: l))
    with (JS.insert compareA x (sort compareA l)).
  by rewrite IH, insert_map.
Qed.
End SortMap.

Lemma buildAndFilterResults_averages searchItems videoItems channelItems
    videoType (averages1 averages2 : gmap string number) filters maxResults :
  map withoutContribution
    (buildAndFilterResults searchItems videoItems channelItems videoType
       averages1 filters maxResults)
  = map withoutContribution
      (buildAndFilterResults searchItems videoItems channelItems videoType
         averages2 filters maxResults).
Proof.
  unfold buildAndFilterResults. cbv zeta.
  rewrite <- !(sort_map withoutContribution byScoreThenRatio byScoreThenRatio)
    by done.
  f_equal. by apply collect_averages.
Qed.

(** X12.  The channel averages decide the two contribution fields and
    nothing else: with any two average maps the output has the same
    records in the same order, equal in every other field. *)
Theorem averages_decide_contribution_only searchItems videoItems channelItems
    videoType (averages1 averages2 : gmap string number) filters maxResults :
  map withoutContribution
    (buildAndFilterResults searchItems videoItems channelItems videoType
       averages1 filters maxResults)
  = map withoutContribution
      (buildAndFilterResults searchItems videoItems channelItems videoType
         averages2 filters maxResults)
  ∧ length (buildAndFilterResults searchItems videoItems channelItems
              videoType averages1 filters maxResults)
    = length (buildAndFilterResults searchItems videoItems channelItems
                videoType averages2 filters maxResults).
Proof.
  pose proof (buildAndFilterResults_averages searchItems videoItems
                channelItems videoType averages1 averages2 filters maxResults)
    as Heq.
  split; [done|].
  apply (f_equal length) in Heq. by rewrite !length_map in Heq.
Qed.

Lemma pipeline_playlists (net1 net2 : Network) clock apiKey keyword videoType
    uploadPeriod minViewCount maxSubscriberCount :
  fetchSearch net1 = fetchSearch net2 →
  fetchVideos net1 = fetchVideos net2 →
  fetchChannels net1 = fetchChannels net2 →
  withoutContributions
    (settle (pipeline net1 clock apiKey keyword videoType uploadPeriod
               minViewCount maxSubscriberCount))
  = withoutContributions
      (settle (pipeline net2 clock apiKey keyword videoType uploadPeriod
                 minViewCount maxSubscriberCount)).
Proof.
  intros Hs Hv Hc. unfold pipeline, bind, searchBucket, bind.
  rewrite Hs, Hv, Hc.
  destruct (Promise_all _) as [|searchResultArrays]; [done|].
  case_match; [done|].
  destruct (fetchInChunks _ _ _) as [|videoItems]; [done|].
  destruct (fetchInChunks _ _ _) as [|channelItems]; [done|].
  cbn [settle withoutContributions]. f_equal.
  - apply buildAndFilterResults_averages.
  - pose proof (buildAndFilterResults_averages
                  (mapValues
                     (map (λ item, (search_videoId item, item))
                        (concat searchResultArrays)))
                  videoItems channelItems videoType
                  (estimateChannels net1 apiKey videoType channelItems)
                  (estimateChannels net2 apiKey videoType channelItems)) as Heq.
    match goal with
    | |- length (buildAndFilterResults _ _ _ _ _ ?f ?m) = _ =>
        specialize (Heq f m)
    end.
    apply (f_equal length) in Heq. by rewrite !length_map in Heq.
Qed.

(** X13.  Stage 3 is isolated: two platforms that answer the search, the
    video and the channel requests alike get the same response up to the
    contribution fields of the records, whatever their playlist endpoints
    do.  A failing playlist endpoint changes neither whether the request
    succeeds, nor which videos are returned, nor their order. *)
Theorem playlist_endpoint_is_isolated (net1 net2 : Network) clock req :
  fetchSearch net1 = fetchSearch net2 →
  fetchVideos net1 = fetchVideos net2 →
  fetchChannels net1 = fetchChannels net2 →
  withoutContributions (POST net1 clock req)
  = withoutContributions (POST net2 clock req).
Proof.
  intros Hs Hv Hc. unfold POST. destruct req as [body|]; [|done].
  destruct (given (body_apiKey body)) as [apiKey|]; [|done].
  destruct (String.eqb (trim apiKey) ""); [done|].
  destruct (given (body_keyword body)) as [keyword|]; [|done].
  destruct (String.eqb (trim keyword) ""); [done|].
  cbv zeta.
  destruct (body_videoType body) as [videoType|]; [|done].
  destruct (String.eqb videoType "shorts");
    [|destruct (String.eqb videoType "longform"); [|done]].
  all: by apply pipeline_playlists.
Qed.

Lemma playlist_endpoint_is_isolated_witness :
  withoutContributions
    (POST Sample.platform31 Sample.clock (Some Sample.request31))
  = withoutContributions
      (POST More.platform31_sampled Sample.clock (Some Sample.request31))
  ∧ POST Sample.platform31 Sample.clock (Some Sample.request31)
    ≠ POST More.platform31_sampled Sample.clock (Some Sample.request31).
Proof.
  split; [apply playlist_endpoint_is_isolated; reflexivity|].
  vm_compute. discriminate.
Defined.

(** ** Further properties: the answers of the handler *)

(** X14.  The handler answers with seven statuses only.  An error response
    without a code has status 400 (the request failed validation) or 500
    (an upstream body that is not JSON); an error response with a code has
    the status of that code: 401 INVALID_API_KEY, 429 QUOTA_EXCEEDED,
    403 FORBIDDEN, 404 NOT_FOUND, 503 NETWORK_ERROR, 500 UNKNOWN.  The
    status the platform answered with is never passed on. *)
Theorem POST_error_statuses net clock req error code status :
  POST net clock req = ErrorResponse error code status →
  (code = None ∧ (status = 400 ∨ status = 500))
  ∨ (∃ c, code = Some c ∧ status = statusMap c).
Proof.
  destruct (POST_cases net clock req)
    as [[error' ->] | (body & apiKey & keyword & videoType & _ & ->)].
  - intros [= <- <- <-]. left. split; [done | by left].
  - destruct (pipeline _ _ _ _ _ _ _ _) as [[e|]|response] eqn:Hrun;
      cbn [settle].
    + intros [= <- <- <-]. right. by eexists.
    + intros [= <- <- <-]. left. split; [done | by right].
    + intros ->. revert Hrun. unfold pipeline, bind.
      repeat case_match; done.
Qed.

Lemma POST_error_statuses_witness :
  ∃ c, Some NETWORK_ERROR = Some c ∧ 503 = statusMap c.
Proof.
  destruct (POST_error_statuses
              {| fetchSearch := λ _ _, None;
                 fetchVideos := λ _ _, None;
                 fetchChannels := λ _ _, None;
                 fetchPlaylistItems := λ _ _, None |}
              Sample.clock (Some Sample.request31)
              "YouTube API 네트워크 오류가 발생했습니다."
              (Some NETWORK_ERROR) 503 eq_refl)
    as [[Hnone _] | Hcode]; [discriminate Hnone | exact Hcode].
Defined.

Lemma given_Some (s : option string) (k : string) :
  given s = Some k ↔ s = Some k ∧ k ≠ "".
Proof.
  destruct s as [[|c s]|]; cbn; split; try done.
  - by intros [[= <-] ?].
  - intros [= <-]. done.
  - by intros [[= <-] _].
  - by intros [[=] _].
Qed.



(** ** Further properties: durations as the platform writes them *)

(** Unfolds [++] on strings as far as the left operand is known. *)
Ltac append := unfold String.append; fold String.append.

Lemma append_assoc (a b c : string) : ((a ++ b) ++ c = a ++ (b ++ c))%string.
Proof. induction a as [|x a IH]; [done|]. append. by f_equal. Qed.

Lemma pretty_N_char_digit (x : N) :
  (x < 10)%N →
  isDigit (pretty_N_char x) = true
  ∧ digitValue 10 (pretty_N_char x) = Some (Z.of_N x).
Proof.
  intros Hx.
  assert (x = 0 ∨ x = 1 ∨ x = 2 ∨ x = 3 ∨ x = 4 ∨ x = 5 ∨ x = 6 ∨ x = 7
          ∨ x = 8 ∨ x = 9)%N as Hcases by lia.
  repeat destruct Hcases as [-> | Hcases]; [..|subst x]; by vm_compute.
Qed.

Lemma pretty_N_go_app (x : N) (s : string) :
  pretty_N_go x s = (pretty_N_go x "" ++ s)%string.
Proof.
  revert s. induction (N.lt_wf_0 x) as [x _ IH]; intros s.
  destruct (decide (x = 0%N)) as [-> | Hx]; [done|].
  rewrite !(pretty_N_go_step x) by lia.
  assert (x `div` 10 < x)%N as Hlt by (apply N.div_lt; lia).
  set (c := pretty_N_char (x `mod` 10)).
  rewrite (IH _ Hlt (String c s)), (IH _ Hlt (String c "")).
  by rewrite append_assoc.
Qed.

Lemma pretty_N_go_allDigits (x : N) (s : string) :
  allDigits s = true → allDigits (pretty_N_go x s) = true.
Proof.
  revert s. induction (N.lt_wf_0 x) as [x _ IH]; intros s Hs.
  destruct (decide (x = 0%N)) as [-> | Hx]; [done|].
  rewrite pretty_N_go_step by lia. apply IH; [apply N.div_lt; lia|].
  cbn [allDigits]. rewrite Hs.
  by destruct (pretty_N_char_digit (x `mod` 10)%N) as [-> _];
    [apply N.mod_lt|].
Qed.

Lemma readDigits_pretty_N_go (x : N) (s : string) (acc : option Z) :
  (0 < x)%N → default 0 acc = 0 →
  readDigits 10 (pretty_N_go x s) acc = readDigits 10 s (Some (Z.of_N x)).
Proof.
  revert s. induction (N.lt_wf_0 x) as [x _ IH]; intros s Hx Hacc.
  rewrite pretty_N_go_step by done.
  destruct (pretty_N_char_digit (x `mod` 10)%N) as [_ Hd];
    [by apply N.mod_lt|].
  destruct (decide (x `div` 10 = 0)%N) as [Hz | Hnz].
  - rewrite Hz, pretty_N_go_0. cbn [readDigits]. rewrite Hd, Hacc.
    do 2 f_equal. pose proof (N.div_mod x 10). lia.
  - rewrite IH; [|apply N.div_lt; lia|by apply N.neq_0_lt_0|done].
    cbn [readDigits]. rewrite Hd. cbn [default].
    do 2 f_equal. unfold Datatypes.id. pose proof (N.div_mod x 10). lia.
Qed.

(** The numeral of [n]: digits only, not empty, read back as [n]. *)
Lemma pretty_N_numeral (n : N) :
  allDigits (pretty n) = true
  ∧ (∃ c s, pretty n = String c s)
  ∧ ∀ rest, readDigits 10 (pretty n ++ rest)%string None
            = readDigits 10 rest (Some (Z.of_N n)).
Proof.
  unfold pretty, pretty_N. destruct (decide (n = 0%N)) as [-> | Hn].
  - split; [done|]. split; [by eauto|]. done.
  - split; [by apply pretty_N_go_allDigits|]. split.
    + rewrite pretty_N_go_step by lia. rewrite pretty_N_go_app.
      destruct (pretty_N_go _ ""); append; eauto.
    + intros rest. rewrite <- pretty_N_go_app.
      apply readDigits_pretty_N_go; [lia | done].
Qed.







Lemma afterPT_cons (c : ascii) (s : string) :
  afterPT (String c s)
  = match s with
    | String c' r =>
        if Ascii.eqb c "P" && Ascii.eqb c' "T" then Some r else afterPT s
    | EmptyString => None
    end.
Proof.
  destruct c as [[] [] [] [] [] [] [] []]; destruct s as [|c' r];
    try reflexivity.
  destruct c' as [[] [] [] [] [] [] [] []]; reflexivity.
Qed.

Lemma afterPT_lacks (s : string) : lacks "P" s = true → afterPT s = None.
Proof.
  induction s as [|c s IH]; [done|].
  cbn [lacks]. intros Hs. apply andb_true_iff in Hs as [Hc Hs].
  rewrite afterPT_cons. apply negb_true_iff in Hc. rewrite Hc.
  destruct s; [done|]. by apply IH.
Qed.

Lemma lacks_app (c : ascii) (a b : string) :
  lacks c (a ++ b)%string = lacks c a && lacks c b.
Proof.
  induction a as [|x a IH]; [done|].
  append. cbn [lacks]. by rewrite IH, andb_assoc.
Qed.

Lemma allDigits_lacks (c : ascii) (s : string) :
  isDigit c = false → allDigits s = true → lacks c s = true.
Proof.
  intros Hc. induction s as [|x s IH]; [done|].
  cbn [allDigits lacks]. intros Hs. apply andb_true_iff in Hs as [Hx Hs].
  rewrite IH by done. rewrite andb_true_r. apply negb_true_iff.
  destruct (Ascii.eqb x c) eqn:Heq; [|done].
  apply Ascii.eqb_eq in Heq as ->. congruence.
Qed.

(** X17.  A duration with a day part is not decoded: in ["P"], a numeral,
    ["D"] and any tail that has no further ["P"] (as in ["P1DT2H30M"], the
    platform's encoding of 26 hours and a half) the pattern finds no
    ["PT"], so the decoded duration is 0 and the video matches neither
    category. *)
Theorem day_part_is_not_decoded (d : N) (tail : string)
    (videoType : VideoType) :
  lacks "P" tail = true →
  parseDurationToSeconds ("P" ++ pretty d ++ "D" ++ tail) = ofZ 0
  ∧ matchesVideoType ("P" ++ pretty d ++ "D" ++ tail) videoType = false.
Proof.
  intros Htail.
  assert (matchDuration ("P" ++ pretty d ++ "D" ++ tail) = None) as Hnone.
  { unfold matchDuration.
    destruct (pretty_N_numeral d) as (Hdigits & (c & s & Hcs) & _).
    assert (lacks "P" (pretty d ++ "D" ++ tail) = true) as Hlacks.
    { rewrite !lacks_app, Htail, (allDigits_lacks "P") by done. done. }
    assert (Ascii.eqb c "T" = false) as HcT.
    { rewrite Hcs in Hdigits. cbn [allDigits] in Hdigits.
      apply andb_true_iff in Hdigits as [Hc _].
      destruct (Ascii.eqb c "T") eqn:Heq; [|done].
      apply Ascii.eqb_eq in Heq as ->. done. }
    rewrite Hcs in *. append. rewrite afterPT_cons.
    revert Hlacks. append. intros Hlacks.
    rewrite HcT, andb_false_r. by rewrite afterPT_lacks. }
  unfold matchesVideoType, parseDurationToSeconds. rewrite Hnone.
  split; [done|]. by destruct videoType.
Qed.

Lemma day_part_is_not_decoded_witness :
  parseDurationToSeconds "P1DT2H30M" = ofZ 0
  ∧ matchesVideoType "P1DT2H30M" longform = false.
Proof. apply (day_part_is_not_decoded 1 "T2H30M" longform). reflexivity. Defined.

(** ** Further properties: batches of fifty *)

Lemma chunks_nil (chunkSize : nat) : chunks [] chunkSize = [].
Proof.
  unfold chunks. cbn [length].
  destruct chunkSize as [|[|n]]; [done | done |].
  rewrite Nat.div_small by lia. done.
Qed.

Lemma chunks_cons (id : string) (ids : list string) (chunkSize : nat) :
  (0 < chunkSize)%nat →
  chunks (id :: ids) chunkSize
  = take chunkSize (id :: ids) :: chunks (drop chunkSize (id :: ids)) chunkSize.
Proof.
  intros Hn. unfold chunks.
  set (l := id :: ids). set (len := length l).
  assert (0 < len)%nat as Hlen by (unfold len, l; cbn; lia).
  assert (((len + chunkSize - 1) / chunkSize
           = S ((length (drop chunkSize l) + chunkSize - 1) / chunkSize))%nat)
    as ->.
  { rewrite length_drop. fold len.
    replace (len + chunkSize - 1)%nat with (len - 1 + 1 * chunkSize)%nat by lia.
    rewrite Nat.div_add by lia.
    destruct (decide (len ≤ chunkSize)%nat) as [Hle | Hgt].
    - replace (len - chunkSize)%nat with 0%nat by lia.
      rewrite !Nat.div_small by lia. done.
    - replace (len - chunkSize + chunkSize - 1)%nat
        with (len - chunkSize - 1 + 1 * chunkSize)%nat by lia.
      rewrite Nat.div_add by lia.
      replace (len - 1)%nat with (len - chunkSize - 1 + 1 * chunkSize)%nat
        at 1 by lia.
      rewrite Nat.div_add by lia. lia. }
  cbn [seq map]. f_equal.
  rewrite <- fmap_S_seq.
  change (map ?f (S <$> ?s)) with (f <$> (S <$> s)).
  rewrite <- list_fmap_compose. apply list_fmap_ext. intros i k _.
  cbn. rewrite drop_drop. repeat f_equal; lia.
Qed.

Lemma chunks_partition (ids : list string) (chunkSize : nat) :
  (0 < chunkSize)%nat →
  concat (chunks ids chunkSize) = ids
  ∧ Forall (λ chunk, (0 < length chunk ≤ chunkSize)%nat) (chunks ids chunkSize).
Proof.
  intros Hn. remember (length ids) as len eqn:Hlen.
  revert ids Hlen. induction (lt_wf len) as [len _ IH]; intros ids ->.
  destruct ids as [|id ids]; [by rewrite chunks_nil|].
  rewrite chunks_cons by done.
  destruct (IH (length (drop chunkSize (id :: ids)))) with
    (ids := drop chunkSize (id :: ids)) as [Hconcat Hall]; [|done|].
  { rewrite length_drop. cbn [length]. lia. }
  split.
  - cbn [concat]. rewrite Hconcat. apply take_drop.
  - constructor; [|done]. rewrite length_take. cbn [length]. lia.
Qed.

(** X18.  [fetchInChunks] cuts the ids into consecutive slices that are
    never empty and never longer than the chunk size, and that put
    together give the ids back, in order; without ids nothing is fetched
    and the result is the empty list. *)
Theorem fetchInChunks_slices {T} (ids : list string) (chunkSize : nat)
    (fetcher : list string → Promise (list T)) :
  (0 < chunkSize)%nat →
  concat (chunks ids chunkSize) = ids
  ∧ Forall (λ chunk, (0 < length chunk ≤ chunkSize)%nat) (chunks ids chunkSize)
  ∧ fetchInChunks [] chunkSize fetcher = inr [].
Proof.
  intros Hn. destruct (chunks_partition ids chunkSize Hn) as [Hc Hall].
  split; [done|]. split; [done|].
  unfold fetchInChunks. by rewrite chunks_nil.
Qed.

Lemma fetchInChunks_slices_witness :
  concat (chunks ["a"; "b"; "c"; "d"; "e"] 2) = ["a"; "b"; "c"; "d"; "e"]
  ∧ Forall (λ chunk, (0 < length chunk ≤ 2)%nat)
      (chunks ["a"; "b"; "c"; "d"; "e"] 2)
  ∧ fetchInChunks [] 2 (λ _, inl JsonSyntaxError) = inr (@nil string).
Proof. apply fetchInChunks_slices. lia. Defined.

Lemma Promise_all_inr {A B} (f : A → Promise B) (g : A → B) (l : list A) :
  (∀ a, f a = inr (g a)) → Promise_all (map f l) = inr (map g l).
Proof.
  intros Hf. induction l as [|a l IH]; [done|].
  cbn [map Promise_all]. unfold bind. by rewrite Hf, IH.
Qed.

(** X19.  Chunking is transparent: for a fetcher that never fails and
    answers a batch with the answers to its parts put together (as the
    platform answers a list of ids), fetching in chunks gives what one
    request for all the ids would. *)
Theorem fetchInChunks_transparent {T} (ids : list string) (chunkSize : nat)
    (fetcher : list string → Promise (list T))
    (answer : list string → list T) :
  (0 < chunkSize)%nat →
  (∀ batch, fetcher batch = inr (answer batch)) →
  (∀ a b, answer (a ++ b)%list = (answer a ++ answer b)%list) →
  fetchInChunks ids chunkSize fetcher = inr (answer ids).
Proof.
  intros Hn Hfetch Hadd. unfold fetchInChunks, bind.
  rewrite (Promise_all_inr fetcher answer) by done.
  assert (answer [] = []) as Hnil.
  { pose proof (Hadd [] []) as H. cbn [app] in H.
    apply (f_equal length) in H. rewrite length_app in H.
    destruct (answer []); [done | cbn in H; lia]. }
  assert (∀ batches, concat (map answer batches) = answer (concat batches))
    as Hconcat.
  { induction batches as [|b batches IH]; [done|].
    cbn [map concat]. by rewrite IH, Hadd. }
  rewrite Hconcat. by destruct (chunks_partition ids chunkSize Hn) as [-> _].
Qed.

Lemma fetchInChunks_transparent_witness :
  fetchInChunks ["a"; "b"; "c"] 2
    (λ batch, inr (map (λ i, Sample.video i "PT30S" None) batch))
  = inr (map (λ i, Sample.video i "PT30S" None) ["a"; "b"; "c"]).
Proof.
  apply (fetchInChunks_transparent ["a"; "b"; "c"] 2 _
           (map (λ i, Sample.video i "PT30S" None))).
  - lia.
  - done.
  - intros a b. apply map_app.
Defined.

Lemma unique_foldl (seen ids : list string) :
  NoDup seen →
  let result :=
    foldl (λ seen i, if decide (i ∈ seen) then seen else (seen ++ [i])%list)
      seen ids in
  NoDup result ∧ ∀ x, x ∈ result ↔ x ∈ seen ∨ x ∈ ids.
Proof.
  revert seen. induction ids as [|i ids IH]; intros seen Hnd; cbn [foldl].
  - split; [done|]. intros x. rewrite elem_of_nil. tauto.
  - destruct (decide (i ∈ seen)) as [Hin | Hout].
    + destruct (IH seen Hnd) as [Hnd' Hel]. split; [done|].
      intros x. rewrite Hel, elem_of_cons. split; [tauto|].
      intros [? | [-> | ?]]; tauto.
    + destruct (IH (seen ++ [i])%list) as [Hnd' Hel].
      { apply NoDup_app. split; [done|]. split; [|apply NoDup_singleton].
        intros x Hx Hx'. apply list_elem_of_singleton in Hx'. by subst. }
      split; [done|]. intros x.
      rewrite Hel, elem_of_app, list_elem_of_singleton, elem_of_cons. tauto.
Qed.

(** X20.  [[...new Set(ids)]] as [getChannelDetails] uses it keeps every id
    and keeps it once; ids that are distinct already are left as they
    are. *)
Theorem unique_ids (ids : list string) :
  NoDup (unique ids)
  ∧ (∀ x, x ∈ unique ids ↔ x ∈ ids)
  ∧ (NoDup ids → unique ids = ids).
Proof.
  unfold unique.
  destruct (unique_foldl [] ids (NoDup_nil_2)) as [Hnd Hel].
  split; [done|]. split.
  - intros x. rewrite Hel, elem_of_nil. tauto.
  - clear Hnd Hel.
    assert (∀ seen, NoDup (seen ++ ids) →
              foldl (λ seen i,
                       if decide (i ∈ seen) then seen else (seen ++ [i])%list)
                seen ids = (seen ++ ids)%list) as Hgen.
    { induction ids as [|i ids IH]; intros seen Hnd;
        [by rewrite app_nil_r|].
      cbn [foldl]. apply NoDup_app in Hnd as (Hseen & Hdisj & Hids).
      rewrite decide_False.
      - rewrite IH; [by rewrite <- app_assoc|].
        rewrite <- app_assoc. apply NoDup_app. done.
      - intros Hin. apply (Hdisj i Hin). by left. }
    intros Hnd. by apply (Hgen []).
Qed.

(** ** Further properties: stage 1 and stage 3 *)

Lemma trim_not_empty (s : string) : trim s ≠ "" → s ≠ "".
Proof. by intros Ht ->. Qed.

Lemma POST_run net clock (body : SearchRequestBody)
    (apiKey keyword : string) (videoType : VideoType) :
  body_apiKey body = Some apiKey → trim apiKey ≠ "" →
  body_keyword body = Some keyword → trim keyword ≠ "" →
  body_videoType body = Some (Page.videoTypeName videoType) →
  POST net clock (Some body)
  = settle (pipeline net clock apiKey keyword videoType
              (body_uploadPeriod body) (body_minViewCount body)
              (body_maxSubscriberCount body)).
Proof.
  intros Ha Hta Hk Htk Hv. unfold POST.
  assert (given (body_apiKey body) = Some apiKey) as ->
    by (apply given_Some; split; [done | by apply trim_not_empty]).
  assert (given (body_keyword body) = Some keyword) as ->
    by (apply given_Some; split; [done | by apply trim_not_empty]).
  apply String.eqb_neq in Hta, Htk. rewrite Hta, Htk, Hv.
  by destruct videoType.
Qed.

Lemma wellFormed_run net clock (body : SearchRequestBody) :
  wellFormed body →
  ∃ apiKey keyword videoType,
    POST net clock (Some body)
    = settle (pipeline net clock apiKey keyword videoType
                (body_uploadPeriod body) (body_minViewCount body)
                (body_maxSubscriberCount body)).
Proof.
  intros ((apiKey & Ha & Hta) & (keyword & Hk & Htk) & Hv).
  exists apiKey, keyword.
  destruct Hv as [Hv | Hv]; [exists shorts | exists longform];
    by apply POST_run.
Qed.

Lemma searchVideos_not_ok (res : Response SearchData) (params : SearchParams) :
  res_ok res = false →
  searchVideos (λ _ _, Some res) params
  = inl (APIError (translateError (res_status res) (errorReason res)
                     (errorMessage res))).
Proof.
  intros Hok. unfold searchVideos. by rewrite youtubeFetch_not_ok.
Qed.

(** X21.  An error of the search endpoint ends the request: when the
    platform answers the search with a response that is not ok, a
    well-formed request gets the message and the code [youtubeFetch] made
    of that response, with the status of the code, whatever the other
    endpoints would answer. *)
Theorem search_error_is_the_answer (net : Network) clock
    (body : SearchRequestBody) (res : Response SearchData) :
  wellFormed body →
  fetchSearch net = (λ _ _, Some res) →
  res_ok res = false →
  POST net clock (Some body)
  = ErrorResponse
      (message (translateError (res_status res) (errorReason res)
                  (errorMessage res)))
      (Some (code (translateError (res_status res) (errorReason res)
                     (errorMessage res))))
      (statusMap (code (translateError (res_status res) (errorReason res)
                          (errorMessage res)))).
Proof.
  intros Hbody Hfetch Hok.
  destruct (wellFormed_run net clock body Hbody)
    as (apiKey & keyword & videoType & ->).
  unfold pipeline, searchBucket. rewrite Hfetch.
  destruct videoType; cbn [getVideoTypeSearchParams videoDurations map
                             Promise_all];
    unfold bind at 1; rewrite searchVideos_not_ok by done; reflexivity.
Qed.

Lemma search_error_is_the_answer_witness :
  POST {| fetchSearch := λ _ _,
            Some {| res_status := 403;
                    res_json :=
                      Parsed (Some "quotaExceeded") (Some "quota")
                        {| data_searchItems := None;
                           data_nextPageToken := None |} |};
          fetchVideos := fetchVideos Sample.platform31;
          fetchChannels := fetchChannels Sample.platform31;
          fetchPlaylistItems := fetchPlaylistItems Sample.platform31 |}
    Sample.clock (Some Sample.request31)
  = ErrorResponse
      "YouTube API 일일 할당량이 초과되었습니다. 내일 다시 시도하거나 다른 API Key를 사용하세요."
      (Some QUOTA_EXCEEDED) 429.
Proof.
  apply (search_error_is_the_answer _ Sample.clock Sample.request31
           {| res_status := 403;
              res_json :=
                Parsed (Some "quotaExceeded") (Some "quota")
                  {| data_searchItems := None;
                     data_nextPageToken := None |} |}).
  - unfold wellFormed. split; [exists "KEY"; by split|].
    split; [exists "cats"; by split | by left].
  - reflexivity.
  - reflexivity.
Defined.

Lemma searchVideos_empty (res : Response SearchData) (params : SearchParams)
    reason upstream data :
  res_ok res = true →
  res_json res = Parsed reason upstream data →
  default [] (data_searchItems data) = [] →
  searchVideos (λ _ _, Some res) params
  = inr {| items := []; nextPageToken := data_nextPageToken data |}.
Proof.
  intros Hok Hjson Hitems. unfold searchVideos, youtubeFetch.
  rewrite Hok, Hjson. cbn [negb]. by rewrite Hitems.
Qed.

(** X22.  A search without hits is a success without videos: when every
    page the search endpoint answers is ok and has no items, a well-formed
    request gets the empty list and the total 0, whatever the other
    endpoints would answer, failures included. *)
Theorem empty_search_is_an_empty_success (net : Network) clock
    (body : SearchRequestBody) (res : Response SearchData) reason upstream data :
  wellFormed body →
  fetchSearch net = (λ _ _, Some res) →
  res_ok res = true →
  res_json res = Parsed reason upstream data →
  default [] (data_searchItems data) = [] →
  POST net clock (Some body) = VideosResponse [] 0.
Proof.
  intros Hbody Hfetch Hok Hjson Hitems.
  destruct (wellFormed_run net clock body Hbody)
    as (apiKey & keyword & videoType & ->).
  assert (∀ publishedAfter dur,
            searchBucket net apiKey keyword publishedAfter dur = inr [])
    as Hbucket.
  { intros publishedAfter dur. unfold searchBucket. rewrite Hfetch.
    unfold bind at 1.
    rewrite (searchVideos_empty res _ reason upstream data) by done.
    cbn [nextPageToken items].
    destruct (given (data_nextPageToken data)); [|done].
    unfold bind.
    by rewrite (searchVideos_empty res _ reason upstream data) by done. }
  unfold pipeline.
  destruct videoType; cbn [getVideoTypeSearchParams videoDurations map
                             Promise_all];
    rewrite !Hbucket; reflexivity.
Qed.

Lemma empty_search_is_an_empty_success_witness :
  POST {| fetchSearch := λ _ _,
            Sample.ok200 {| data_searchItems := None;
                            data_nextPageToken := Some "next" |};
          fetchVideos := λ _ _, None;
          fetchChannels := λ _ _, None;
          fetchPlaylistItems := λ _ _, None |}
    Sample.clock (Some Sample.request31)
  = VideosResponse [] 0.
Proof.
  eapply (empty_search_is_an_empty_success _ Sample.clock Sample.request31).
  - unfold wellFormed. split; [exists "KEY"; by split|].
    split; [exists "cats"; by split | by left].
  - reflexivity.
  - reflexivity.
  - reflexivity.
  - reflexivity.
Defined.

Lemma estimateChannel_keys net apiKey videoType
    (averages : gmap string number) (channel : YouTubeChannelItem)
    (k : string) (avg : number) :
  estimateChannel net apiKey videoType averages channel !! k = Some avg →
  averages !! k = Some avg ∨ (channel_id channel = k ∧ gt avg (ofZ 0) = true).
Proof.
  unfold estimateChannel. repeat case_match; try (by left).
  intros Hlook.
  apply lookup_insert_Some in Hlook as [[<- <-] | [_ Hlook]];
    [by right | by left].
Qed.

(** X23.  Stage 3 records an average for channels of the batch only, and
    only for those that name an uploads playlist; every average it records
    is positive.  When the playlist endpoint fails for every request, no
    average is recorded at all. *)
Theorem estimateChannels_entries (net : Network) (apiKey : string)
    (videoType : VideoType) (channelItems : list YouTubeChannelItem) :
  (∀ k avg,
     estimateChannels net apiKey videoType channelItems !! k = Some avg →
     gt avg (ofZ 0) = true
     ∧ ∃ channel,
         channel ∈ channelItems
         ∧ channel_id channel = k
         ∧ is_Some (given (channel_uploads channel)))
  ∧ (fetchPlaylistItems net = (λ _ _, None) →
     estimateChannels net apiKey videoType channelItems = ∅).
Proof.
  unfold estimateChannels. split.
  - intros k avg.
    set (sampled := List.filter _ channelItems).
    assert (∀ c, c ∈ sampled →
                 c ∈ channelItems ∧ is_Some (given (channel_uploads c)))
      as Hsampled.
    { intros c Hc. unfold sampled in Hc.
      apply list_elem_of_In, filter_In in Hc as [Hc Hup].
      apply bool_decide_eq_true in Hup. by rewrite list_elem_of_In. }
    clearbody sampled.
    assert (∀ (m0 : gmap string number),
              foldl (estimateChannel net apiKey videoType) m0 sampled !! k
              = Some avg →
              m0 !! k = Some avg
              ∨ (gt avg (ofZ 0) = true
                 ∧ ∃ c, c ∈ sampled ∧ channel_id c = k)) as Hgen.
    { induction sampled as [|c sampled IH]; intros m0 Hlook; [by left|].
      cbn [foldl] in Hlook. apply IH in Hlook as [Hlook | (Hpos & c' & Hc' & Hid)].
      - apply estimateChannel_keys in Hlook as [Hlook | [Hid Hpos]];
          [by left|].
        right. split; [done|]. exists c. split; [by left | done].
      - right. split; [done|]. exists c'. split; [by right | done].
      - intros c' Hc'. apply Hsampled. by right. }
    intros Hlook. apply Hgen in Hlook as [Hlook | (Hpos & c & Hc & Hid)];
      [by rewrite lookup_empty in Hlook|].
    split; [done|]. exists c. destruct (Hsampled c Hc). done.
  - intros Hfail.
    generalize (List.filter
                  (λ c, bool_decide (is_Some (given (channel_uploads c))))
                  channelItems) as sampled.
    induction sampled as [|c sampled IH]; [done|].
    cbn [foldl]. unfold estimateChannel at 2.
    unfold getPlaylistItems, youtubeFetch. rewrite Hfail. exact IH.
Qed.

Lemma estimateChannels_entries_witness :
  gt (ofZ 5) (ofZ 0) = true
  ∧ ∃ channel,
      channel ∈ [Sample.channel "c1" (Some "1")]
      ∧ channel_id channel = "c1"
      ∧ is_Some (given (channel_uploads channel)).
Proof.
  apply (proj1 (estimateChannels_entries More.platform31_sampled "KEY" shorts
                  [Sample.channel "c1" (Some "1")]) "c1" (ofZ 5)).
  vm_compute. reflexivity.
Defined.

(** ** Further properties: the page *)

Lemma trimStart_head (s : string) :
  trimStart s = "" ∨ ∃ c r, trimStart s = String c r ∧ isWhiteSpace c = false.
Proof.
  induction s as [|c s IH]; [by left|].
  cbn [trimStart]. destruct (isWhiteSpace c) eqn:Hc; [done|].
  right. by eauto.
Qed.

Lemma trimEnd_idempotent (s : string) : trimEnd (trimEnd s) = trimEnd s.
Proof.
  induction s as [|c s IH]; [done|].
  cbn [trimEnd].
  destruct (isWhiteSpace c && String.eqb (trimEnd s) "") eqn:Hc; [done|].
  cbn [trimEnd]. by rewrite IH, Hc.
Qed.

Lemma trim_idempotent (s : string) : trim (trim s) = trim s.
Proof.
  unfold trim.
  destruct (trimStart_head s) as [-> | (c & r & -> & Hc)]; [done|].
  cbn [trimEnd]. rewrite Hc. cbn [andb trimStart]. rewrite Hc.
  cbn [trimEnd]. rewrite Hc. cbn [andb]. by rewrite trimEnd_idempotent.
Qed.

(** X24.  The page never sends a request that the handler rejects: when
    the two guards of [handleSearch] pass, the request it builds is
    well-formed and is answered by the pipeline, run on the trimmed API key
    and the trimmed keyword. *)
Theorem page_request_reaches_pipeline (inputs : Page.Inputs) net clock :
  trim (Page.apiKey inputs) ≠ "" →
  trim (Page.keyword inputs) ≠ "" →
  wellFormed (Page.requestBody inputs)
  ∧ POST net clock (Some (Page.requestBody inputs))
    = settle (pipeline net clock (trim (Page.apiKey inputs))
                (trim (Page.keyword inputs)) (Page.videoType inputs)
                (Some (Page.uploadPeriodName (Page.uploadPeriod inputs)))
                (body_minViewCount (Page.requestBody inputs))
                (Page.maxSubscriberCount inputs)).
Proof.
  intros Hkey Hword. split.
  - unfold wellFormed, Page.requestBody. cbn [body_apiKey body_keyword
                                               body_videoType].
    split; [eexists; split; [done | by rewrite trim_idempotent]|].
    split; [eexists; split; [done | by rewrite trim_idempotent]|].
    destruct (Page.videoType inputs); [by left | by right].
  - by rewrite (POST_run net clock (Page.requestBody inputs)
                  (trim (Page.apiKey inputs)) (trim (Page.keyword inputs))
                  (Page.videoType inputs));
      rewrite ?trim_idempotent.
Qed.

Lemma page_request_reaches_pipeline_witness :
  wellFormed
    (Page.requestBody (Page.setApiKey " KEY " (More.typed "cats" "")))
  ∧ POST Sample.platform31 Sample.clock
      (Some (Page.requestBody (Page.setApiKey " KEY " (More.typed "cats" ""))))
    = settle (pipeline Sample.platform31 Sample.clock "KEY" "cats" longform
                (Some "all") None None).
Proof.
  apply (page_request_reaches_pipeline
           (Page.setApiKey " KEY " (More.typed "cats" ""))
           Sample.platform31 Sample.clock); discriminate.
Defined.









(** X26.  The API key survives a reload as it is sent: after any change of
    the key field, a page that is mounted afresh on the same storage builds
    a request with the same API key as the page that was typed into; a key
    that is blank is removed from the storage, and a stored key is never
    blank and carries no white space around it. *)
Theorem api_key_survives_reload (val : string)
    (state : Page.Inputs * Page.LocalStorage) :
  let changed := Page.handleApiKeyChange val state in
  let mounted := Page.restoreApiKey (Page.initialInputs, changed.2) in
  body_apiKey (Page.requestBody mounted.1)
  = body_apiKey (Page.requestBody changed.1)
  ∧ (changed.2 = None ∧ trim val = ""
     ∨ ∃ stored, changed.2 = Some stored ∧ stored ≠ "" ∧ trim stored = stored).
Proof.
  cbv zeta. unfold Page.handleApiKeyChange, Page.restoreApiKey.
  cbn [fst snd].
  destruct (String.eqb (trim val) "") eqn:Hblank; cbn [negb].
  - apply String.eqb_eq in Hblank. cbn [given fst].
    split; [|by left].
    unfold Page.requestBody, Page.setApiKey, Page.initialInputs.
    cbn [body_apiKey Page.apiKey]. by rewrite Hblank.
  - apply String.eqb_neq in Hblank. split.
    + assert (given (Some (trim val)) = Some (trim val)) as ->
        by (by apply given_Some).
      unfold Page.requestBody, Page.setApiKey.
      cbn [body_apiKey Page.apiKey fst]. by rewrite trim_idempotent.
    + right. exists (trim val). split; [done|]. split; [done|].
      apply trim_idempotent.
Qed.

Lemma POST_error_not_ok net clock req :
  Page.ok (POST net clock req) = true
  ↔ ∃ videos total, POST net clock req = VideosResponse videos total.
Proof.
  split; [|by intros (? & ? & ->)].
  destruct (POST_cases net clock req)
    as [[error' ->] | (body & apiKey & keyword & videoType & _ & ->)];
    [done|].
  destruct (pipeline _ _ _ _ _ _ _ _) as [[e|]|response] eqn:Hrun;
    cbn [settle Page.ok].
  - by destruct (code e).
  - done.
  - destruct response; [by eauto|].
    revert Hrun. unfold pipeline, bind. repeat case_match; done.
Qed.

(** X27.  The page shows what the handler answered.  With a blank key or
    keyword the search is refused on the page, the handler is not asked and
    the videos shown stay.  Otherwise the page ends in success with exactly
    the videos and the total of the response, or in error with exactly the
    message of the response and no videos; an error response is never
    taken for a success. *)
Theorem page_shows_the_answer (inputs : Page.Inputs) (s : Page.SearchState)
    net clock :
  let server := λ body, Some (POST net clock (Some body)) in
  let shown := Page.handleSearch server inputs s in
  (trim (Page.apiKey inputs) = "" ∨ trim (Page.keyword inputs) = "" →
   Page.status shown = Page.error
   ∧ Page.videos shown = Page.videos s
   ∧ ∀ other, Page.handleSearch other inputs s = shown)
  ∧ (trim (Page.apiKey inputs) ≠ "" → trim (Page.keyword inputs) ≠ "" →
     match POST net clock (Some (Page.requestBody inputs)) with
     | VideosResponse videos total =>
         Page.status shown = Page.success
         ∧ Page.videos shown = videos
         ∧ Page.total shown = total
         ∧ Page.search_error shown = None
     | ErrorResponse message _ _ =>
         Page.status shown = Page.error
         ∧ Page.search_error shown = Some message
         ∧ Page.videos shown = []
     end).
Proof.
  cbv zeta. unfold Page.handleSearch. split.
  - intros [Hblank | Hblank].
    + rewrite Hblank. cbn. done.
    + rewrite Hblank.
      destruct (String.eqb (trim (Page.apiKey inputs)) ""); cbn; done.
  - intros Hkey Hword. apply String.eqb_neq in Hkey, Hword.
    rewrite Hkey, Hword.
    pose proof (POST_error_not_ok net clock (Some (Page.requestBody inputs)))
      as Hok.
    destruct (POST net clock (Some (Page.requestBody inputs)))
      as [videos total | message code status].
    + cbn. done.
    + destruct (Page.ok _) eqn:Hstatus.
      * destruct (proj1 Hok eq_refl) as (? & ? & [=]).
      * cbn. done.
Qed.

Lemma page_shows_the_answer_witness :
  Page.status
    (Page.handleSearch
       (λ body, Some (POST Sample.platform31 Sample.clock (Some body)))
       (More.typed "cats" "") More.idle)
  = Page.success
  ∧ Page.total
      (Page.handleSearch
         (λ body, Some (POST Sample.platform31 Sample.clock (Some body)))
         (More.typed "cats" "") More.idle)
    = 0%nat.
Proof.
  pose proof (proj2 (page_shows_the_answer (More.typed "cats" "") More.idle
                       Sample.platform31 Sample.clock)
                ltac:(discriminate) ltac:(discriminate)) as Hshown.
  revert Hshown. vm_compute. tauto.
Defined.

(** X28.  The page and the handler agree on the upload periods: each of
    the five periods the page can send is understood by
    [calcPublishedAfter], ["all"] as no date bound and the other four as
    the date the clock gives for them.  A period the handler does not know
    is not an error: it is treated like ["all"]. *)
Theorem upload_periods_are_understood (clock : string → string) :
  (∀ period,
     calcPublishedAfter clock (Some (Page.uploadPeriodName period))
     = match period with
       | Page.all => None
       | _ => Some (clock (Page.uploadPeriodName period))
       end)
  ∧ (∀ unknown,
       (∀ period, unknown ≠ Page.uploadPeriodName period) →
       calcPublishedAfter clock (Some unknown) = None)
  ∧ calcPublishedAfter clock None = None.
Proof.
  split; [by intros []|]. split; [|done].
  intros unknown Hunknown. unfold calcPublishedAfter.
  destruct (given (Some unknown)) as [p|] eqn:Hp; [|done].
  apply given_Some in Hp as [[= <-] _].
  pose proof (Hunknown Page.all) as Hall.
  pose proof (Hunknown Page.month1) as H1.
  pose proof (Hunknown Page.months3) as H3.
  pose proof (Hunknown Page.months6) as H6.
  pose proof (Hunknown Page.year1) as Hy.
  cbn [Page.uploadPeriodName] in *.
  apply String.eqb_neq in Hall, H1, H3, H6, Hy.
  by rewrite Hall, H1, H3, H6, Hy.
Qed.
